(** * fishtest-test-tracker: the scheduled fetch-and-process script and the
      browser page, embedded shallowly and checked against the specification.

    Source files:
    - [.github/scripts/fetch_and_process.js]: [processRawData],
      [updateHistoricalData], [main] with [loadJson], [saveJson],
      [fetchFishtestData];
    - the page script: [formatLLR], [updateChartData], [initializeChart],
      [toggleChartMetric], [handleBranchClick].

    How the program is modelled:
    - a JavaScript Number is an IEEE 754 binary64 value, here the kernel's
      primitive [float], whose operations are the same binary64 operations;
      [NaN], the infinities and the two zeros are all there;
    - the built-in functions the scripts call ([parseInt], [parseFloat],
      [toFixed], [Math.round], the conversion of a Number to a string, ...)
      are written out in module [JS], on exact integer arithmetic;
    - the history object, used as a dictionary, is a [gmap] from test id to
      the array of points; a test id is a string, as the API's [_id] is, and
      is taken not to name a property every object inherits (such as
      [constructor]);
    - [Date.now()] is a stream of readings, one per call;
    - the file system and the network are a record [World] of outcomes, and
      [main] runs in a monad that may throw and that logs the files written;
    - the page's global variables, and the parts of the chart and of the
      document its functions write, are a record [Page]; what a function
      does to the outside is a list of [Effect]s. *)

From Stdlib Require Import ZArith String Ascii List Floats DecimalString Lia Bool Sorted.
From stdpp Require Import base option list gmap sets strings.

Set Warnings "-inexact-float,-register-all,-clear-no-such-hyp".

(** ** The fragment of the JavaScript run time the two scripts rely on *)
Module JS.

(** *** Numbers *)

Definition signed (s : bool) (m : positive) : Z :=
  if s then Z.neg m else Z.pos m.

(** The Number nearest to an integer (round to nearest, ties to even). *)
Definition of_Z (z : Z) : float :=
  SF2Prim (binary_normalize prec emax z 0 false).

(** [x === y] and [x !== y] on two Numbers: IEEE equality, under which
    [NaN] differs from itself and [+0] equals [-0]. *)
Definition num_strict_eq (x y : float) : bool := (x =? y)%float.

(** [Math.floor]: a finite non-integral Number has a negative exponent and
    fewer than 2^53 units, so its floor is computed exactly. *)
Definition Math_floor (x : float) : float :=
  match Prim2SF x with
  | S754_finite s m e =>
      if (0 <=? e)%Z then x else of_Z (Z.shiftr (signed s m) (- e))
  | _ => x
  end.

(** [Math.round]: the nearest integer, a tie going towards +Infinity; what
    rounds to zero from below is [-0]. *)
Definition Math_round (x : float) : float :=
  match Prim2SF x with
  | S754_finite s m e =>
      if (0 <=? e)%Z then x
      else
        let q := Z.shiftr (signed s m + Z.shiftl 1 (- e - 1)) (- e) in
        if (q =? 0)%Z then (if s then neg_zero else zero) else of_Z q
  | _ => x
  end.

(** [Math.min(a, b)] and [Math.max(a, b)]: [NaN] when an argument is [NaN];
    [-0] counts as smaller than [+0]. *)
Definition Math_min (a b : float) : float :=
  if is_nan a || is_nan b then nan
  else if (b <? a)%float then b
  else if (a <? b)%float then a
  else if get_sign a then a else b.

Definition Math_max (a b : float) : float :=
  if is_nan a || is_nan b then nan
  else if (a <? b)%float then b
  else if (b <? a)%float then a
  else if get_sign a then b else a.

(** [x || 0] on a Number: [NaN] and both zeros are falsy. *)
Definition or_zero (x : float) : float :=
  if is_nan x || is_zero x then zero else x.

(** *** Decimal digits *)

Definition digits_of_Z (n : Z) : string :=
  NilZero.string_of_uint (N.to_uint (Z.to_N n)).

Fixpoint zeros (n : nat) : string :=
  match n with
  | O => EmptyString
  | S k => String "0" (zeros k)
  end.

Definition take_str (n : nat) (s : string) : string := String.substring 0 n s.
Definition drop_str (n : nat) (s : string) : string :=
  String.substring n (String.length s - n) s.

(** *** [Number::toString], radix 10

    For a finite positive [x = m * 2^e] the digits are those of the
    shortest decimal [s * 10^p] that rounds back to [x], the nearest to [x]
    when several are as short.  Every quantity is scaled to an integer:
    [x = 4m * 2^(e-2)], and the reals that round to [x] lie between
    [lo * 2^(e-2)] and [hi * 2^(e-2)], bounds included when [m] is even. *)

Definition pow10 (k : Z) : Z := (10 ^ k)%Z.

Definition ceil_div (a b : Z) : Z := (- ((- a) / b))%Z.

(** The candidate significands at the decimal exponent [p]:
    [(smin, smax, c, u)] where the decimal [s] stands for [s * u] and [x]
    for [c] on the common integer scale. *)
Definition candidates (m : positive) (e p : Z) : Z * Z * Z * Z :=
  let incl := Z.even (Z.pos m) in
  let lo :=
    if ((Z.pos m =? 2 ^ 52) && (-1074 <? e))%Z
    then (4 * Z.pos m - 1)%Z else (4 * Z.pos m - 2)%Z in
  let hi := (4 * Z.pos m + 2)%Z in
  let N := (2 ^ Z.max (e - 2) 0)%Z in
  let D := (2 ^ Z.max (- (e - 2)) 0)%Z in
  let P1 := pow10 (Z.max p 0) in
  let P2 := pow10 (Z.max (- p) 0) in
  let u := (P1 * D)%Z in
  let a := (lo * N * P2)%Z in
  let b := (hi * N * P2)%Z in
  let smin :=
    if incl then ceil_div a u else (a / u + 1)%Z in
  let smax :=
    if incl then (b / u)%Z else (ceil_div b u - 1)%Z in
  (smin, smax, (4 * Z.pos m * N * P2)%Z, u).

(** The candidate nearest to [x], the even one on a tie. *)
Definition nearest (smin smax c u : Z) : Z :=
  let f := (c / u)%Z in
  let g := ceil_div c u in
  if (f <? smin)%Z then g
  else if (smax <? g)%Z then f
  else
    let df := (c - f * u)%Z in
    let dg := (g * u - c)%Z in
    if (df <? dg)%Z then f
    else if (dg <? df)%Z then g
    else if Z.even f then f else g.

Fixpoint shortest (fuel : nat) (m : positive) (e p : Z) : Z * Z :=
  let '(smin, smax, c, u) := candidates m e p in
  if (smin <=? smax)%Z then (nearest smin smax c u, p)
  else
    match fuel with
    | O => (0%Z, p)
    | S k => shortest k m e (p - 1)
    end.

(** No decimal exponent above this one has a candidate: [x < 2^(e+53)]. *)
Definition first_exponent (e : Z) : Z :=
  let b := (e + 53)%Z in
  ((if (0 <=? b)%Z then b * 30103 / 100000 else b * 30102 / 100000) + 1)%Z.

Definition layout (ds : string) (n : Z) : string :=
  let k := Z.of_nat (String.length ds) in
  if ((k <=? n) && (n <=? 21))%Z then
    ds +:+ zeros (Z.to_nat (n - k))
  else if ((0 <? n) && (n <=? 21))%Z then
    take_str (Z.to_nat n) ds +:+ "." +:+ drop_str (Z.to_nat n) ds
  else if ((-6 <? n) && (n <=? 0))%Z then
    "0." +:+ zeros (Z.to_nat (- n)) +:+ ds
  else
    let x := (n - 1)%Z in
    let ex := (if (x <? 0)%Z then "-" else "+") +:+ digits_of_Z (Z.abs x) in
    if (k =? 1)%Z then ds +:+ "e" +:+ ex
    else take_str 1 ds +:+ "." +:+ drop_str 1 ds +:+ "e" +:+ ex.

Definition toString_finite (m : positive) (e : Z) : string :=
  let '(s, p) := shortest 48 m e (first_exponent e) in
  let ds := digits_of_Z s in
  layout ds (Z.of_nat (String.length ds) + p).

Definition Number_toString (x : float) : string :=
  match Prim2SF x with
  | S754_nan => "NaN"
  | S754_zero _ => "0"
  | S754_infinity s => (if s then "-" else "") +:+ "Infinity"
  | S754_finite s m e => (if s then "-" else "") +:+ toString_finite m e
  end.

(** *** [Number.prototype.toFixed]

    [fixed n f] lays out the integer [n], a count of units [10^-f]. *)
Definition fixed (n : Z) (f : nat) : string :=
  let m := digits_of_Z n in
  match f with
  | O => m
  | _ =>
      let k := String.length m in
      let m' := if (k <=? f)%nat then zeros (f + 1 - k) +:+ m else m in
      let k' := String.length m' in
      take_str (k' - f) m' +:+ "." +:+ drop_str (k' - f) m'
  end.

(** The integer [n] for which [n / 10^f - m * 2^e] is nearest to zero, the
    larger one on a tie. *)
Definition fixed_units (m : positive) (e : Z) (f : nat) : Z :=
  let num := (Z.pos m * pow10 (Z.of_nat f))%Z in
  if (0 <=? e)%Z then Z.shiftl num e
  else Z.shiftr (2 * num + Z.shiftl 1 (- e)) (- e + 1).

Definition Number_toFixed (x : float) (f : nat) : string :=
  match Prim2SF x with
  | S754_nan | S754_infinity _ => Number_toString x
  | S754_zero _ => fixed 0 f
  | S754_finite s m e =>
      (if s then "-" else "") +:+
      (if (1e21 <=? abs x)%float then Number_toString (abs x)
       else fixed (fixed_units m e f) f)
  end.

(** *** Strings to Numbers *)

Definition is_white (c : ascii) : bool :=
  let n := nat_of_ascii c in
  ((9 <=? n) && (n <=? 13) || (n =? 32))%nat.

Fixpoint trim_start (s : string) : string :=
  match s with
  | String c r => if is_white c then trim_start r else s
  | EmptyString => s
  end.

Definition digit_value (c : ascii) : option Z :=
  let n := nat_of_ascii c in
  if ((48 <=? n) && (n <=? 57))%nat then Some (Z.of_nat (n - 48)) else None.

Definition hex_value (c : ascii) : option Z :=
  let n := nat_of_ascii c in
  if ((48 <=? n) && (n <=? 57))%nat then Some (Z.of_nat (n - 48))
  else if ((97 <=? n) && (n <=? 102))%nat then Some (Z.of_nat (n - 87))
  else if ((65 <=? n) && (n <=? 70))%nat then Some (Z.of_nat (n - 55))
  else None.

(** The longest prefix of digits in the given radix: its value on top of
    [acc], how many digits it has, and what follows it. *)
Fixpoint read_digits (value : ascii -> option Z) (radix acc : Z) (s : string)
  : Z * nat * string :=
  match s with
  | String c r =>
      match value c with
      | Some d =>
          let '(v, n, rest) := read_digits value radix (acc * radix + d)%Z r in
          (v, S n, rest)
      | None => (acc, O, s)
      end
  | EmptyString => (acc, O, s)
  end.

(** An optional sign: [true] for a minus. *)
Definition read_sign (s : string) : bool * string :=
  match s with
  | String "-" r => (true, r)
  | String "+" r => (false, r)
  | _ => (false, s)
  end.

(** The Number nearest to [m * 10^e], for [0 <= m]. *)
Definition of_decimal (neg : bool) (m e : Z) : float :=
  let x :=
    if (m =? 0)%Z then zero
    else if (0 <=? e)%Z then of_Z (m * pow10 e)
    else
      SF2Prim (SFdiv prec emax
                 (S754_finite false (Z.to_pos m) 0)
                 (S754_finite false (Z.to_pos (pow10 (- e))) 0)) in
  if neg then (- x)%float else x.

(** The exponent part [e], [e+] or [e-] followed by digits, when there is
    one. *)
Definition read_exponent (s : string) : Z :=
  match s with
  | String c r =>
      if (Ascii.eqb c "e" || Ascii.eqb c "E")%bool then
        let '(neg, r') := read_sign r in
        let '(v, n, _) := read_digits digit_value 10 0 r' in
        match n with
        | O => 0%Z
        | _ => if neg then (- v)%Z else v
        end
      else 0%Z
  | EmptyString => 0%Z
  end.

(** [parseFloat] on a string: the longest prefix, after leading white
    space, that is a decimal literal; [NaN] when there is none. *)
Definition parseFloat_string (input : string) : float :=
  let '(neg, s) := read_sign (trim_start input) in
  if String.prefix "Infinity" s then (if neg then neg_infinity else infinity)
  else
    let '(ip, ni, r1) := read_digits digit_value 10 0 s in
    let '(m, nf, r2) :=
      match r1 with
      | String "." r => read_digits digit_value 10 ip r
      | _ => (ip, O, r1)
      end in
    match (ni + nf)%nat with
    | O => nan
    | _ =>
        let r := match r1 with
                 | String "." _ => r2
                 | _ => r1
                 end in
        of_decimal neg m (read_exponent r - Z.of_nat nf)
    end.

(** [parseInt] on a string, no radix given: radix 16 after [0x] or [0X],
    radix 10 otherwise; [NaN] when no digit follows. *)
Definition parseInt_string (input : string) : float :=
  let '(neg, s) := read_sign (trim_start input) in
  let '(v, n, _) :=
    match s with
    | String "0" (String c r) =>
        if (Ascii.eqb c "x" || Ascii.eqb c "X")%bool
        then read_digits hex_value 16 0 r
        else read_digits digit_value 10 0 s
    | _ => read_digits digit_value 10 0 s
    end in
  match n with
  | O => nan
  | _ => if neg then (- of_Z v)%float else of_Z v
  end.

(** *** Values

    What [JSON.parse] yields, and [undefined] for what is absent.  An
    object lists its own properties in enumeration order. *)
Inductive Val : Type :=
| VUndefined
| VNull
| VBool (b : bool)
| VNum (x : float)
| VStr (s : string)
| VArr (elems : list Val)
| VObj (props : list (string * Val)).

(** [ToString]. *)
Fixpoint ToString (v : Val) : string :=
  match v with
  | VUndefined => "undefined"
  | VNull => "null"
  | VBool b => if b then "true" else "false"
  | VNum x => Number_toString x
  | VStr s => s
  | VArr elems =>
      let item (w : Val) : string :=
        match w with
        | VUndefined | VNull => ""
        | _ => ToString w
        end in
      String.concat "," (List.map item elems)
  | VObj _ => "[object Object]"
  end.

(** [ToBoolean]. *)
Definition truthy (v : Val) : bool :=
  match v with
  | VUndefined | VNull => false
  | VBool b => b
  | VNum x => negb (is_nan x || is_zero x)
  | VStr s => negb (String.eqb s "")
  | VArr _ | VObj _ => true
  end.

Definition nullish (v : Val) : bool :=
  match v with
  | VUndefined | VNull => true
  | _ => false
  end.

Fixpoint assoc (k : string) (props : list (string * Val)) : Val :=
  match props with
  | [] => VUndefined
  | (k', v) :: rest => if String.eqb k k' then v else assoc k rest
  end.

(** [v.k] for the property names the scripts read ([args], [sprt], [llr],
    [elo0], [username], [new_tag], [results], [wins], [losses], [draws],
    [workers]): none of them is a property of a number, a boolean, a string
    or an array, where the read gives [undefined].  On [null] and
    [undefined] the read throws a [TypeError]: [None]. *)
Definition get (v : Val) (k : string) : option Val :=
  match v with
  | VUndefined | VNull => None
  | VObj props => Some (assoc k props)
  | _ => Some VUndefined
  end.

(** [v?.k]. *)
Definition get_opt (v : Val) (k : string) : Val :=
  match get v k with
  | Some w => w
  | None => VUndefined
  end.

(** [a ?? b] and [a || b]. *)
Definition coalesce (a b : Val) : Val := if nullish a then b else a.
Definition or_else (a b : Val) : Val := if truthy a then a else b.

Definition parseInt (v : Val) : float := parseInt_string (ToString v).
Definition parseFloat (v : Val) : float := parseFloat_string (ToString v).

End JS.

(** ** The data model *)

(** One processed test, as [processRawData] builds it.  [id] is the API's
    [_id], a string; the page relies on it too ([test.id.substring]).
    [username] and [branch] are passed through as received. *)
Module Test.
Record t : Type := mk {
  id : string;
  username : JS.Val;
  branch : JS.Val;
  llr : option float;
  wml : float;
  wins : float;
  losses : float;
  draws : float;
  totalGames : float;
  workers : float;
  sprtElo0 : option float
}.
End Test.

(** One retained sample [{time, wml, llr}]; a [null] llr is [None]. *)
Module Point.
Record t : Type := mk {
  time : float;
  wml : float;
  llr : option float
}.
End Point.

(** The history object: test id to its samples, oldest first. *)
Abbreviation HistoryStore := (gmap string (list Point.t)).

(** ** The history store manager ([fetch_and_process.js]) *)

Definition MAX_HISTORY_POINTS : nat := 864.

(** [a !== b] where each side is a Number or [null]. *)
Definition llr_differs (a b : option float) : bool :=
  match a, b with
  | None, None => false
  | Some x, Some y => negb (JS.num_strict_eq x y)
  | _, _ => true
  end.

(** The candidate point of one test, [now] being what [Date.now()] gave. *)
Definition newPoint (now : float) (test : Test.t) : Point.t :=
  {| Point.time := JS.Math_floor (now / 1000);
     Point.wml := Test.wml test;
     Point.llr := Test.llr test |}.

(** [!lastEntry || lastEntry.wml !== newPoint.wml ||
     lastEntry.llr !== newPoint.llr] *)
Definition differs (lastEntry : option Point.t) (p : Point.t) : bool :=
  match lastEntry with
  | None => true
  | Some l =>
      negb (JS.num_strict_eq (Point.wml l) (Point.wml p))
      || llr_differs (Point.llr l) (Point.llr p)
  end.

(** [testHistory.push(newPoint)], then [testHistory.shift()] when the length
    has passed the limit. *)
Definition push_capped (testHistory : list Point.t) (p : Point.t) : list Point.t :=
  let pushed := testHistory ++ [p] in
  if (MAX_HISTORY_POINTS <? length pushed)%nat then tail pushed else pushed.

(** What one pass of the [forEach] body leaves in a test's sequence. *)
Definition step_seq (now : float) (test : Test.t) (testHistory : list Point.t)
  : list Point.t :=
  if differs (last testHistory) (newPoint now test)
  then push_capped testHistory (newPoint now test)
  else testHistory.

(** The body of [latestProcessedTests.forEach], on the pair of
    [currentHistory] and [historyChanged]. *)
Definition visit (now : float) (acc : HistoryStore * bool) (test : Test.t)
  : HistoryStore * bool :=
  let '(h, ch) := acc in
  let '(h1, ch1) :=
    match h !! Test.id test with
    | None => (<[Test.id test := []]> h, true)
    | Some _ => (h, ch)
    end in
  let testHistory := default [] (h1 !! Test.id test) in
  let p := newPoint now test in
  if differs (last testHistory) p
  then (<[Test.id test := push_capped testHistory p]> h1, true)
  else (h1, ch1).

(** [forEach]: the [k]-th call of [Date.now()] returns [clock k]. *)
Fixpoint forEach (clock : nat → float) (k : nat) (tests : list Test.t)
  (acc : HistoryStore * bool) : HistoryStore * bool :=
  match tests with
  | [] => acc
  | test :: rest => forEach clock (S k) rest (visit (clock k) acc test)
  end.

Definition activeTestIds (tests : list Test.t) : gset string :=
  list_to_set (map Test.id tests).

(** [for (const testId in currentHistory)]: every key of the store is
    visited once, and deleted when it is not active. *)
Definition cleanup (active : gset string) (acc : HistoryStore * bool)
  : HistoryStore * bool :=
  map_fold
    (λ testId _ (r : HistoryStore * bool),
       if decide (testId ∈ active) then r else (delete testId r.1, true))
    acc acc.1.

Record UpdateResult : Type := {
  updatedHistory : HistoryStore;
  historyChanged : bool
}.

Definition updateHistoricalData (clock : nat → float)
  (currentHistory : HistoryStore) (latestProcessedTests : list Test.t)
  : UpdateResult :=
  let active := activeTestIds latestProcessedTests in
  let r := cleanup active
             (forEach clock 0 latestProcessedTests (currentHistory, false)) in
  {| updatedHistory := r.1; historyChanged := r.2 |}.

(** ** The snapshot processor ([fetch_and_process.js]) *)

(** One record of the API's answer: [_id], and the loosely structured
    [args], [results] and [workers], each [VUndefined] when absent. *)
Module Raw.
Record t : Type := mk {
  _id : string;
  args : JS.Val;
  results : JS.Val;
  workers : JS.Val
}.
End Raw.

(** The body of the [for ... in] loop.  [args] is truthy after [|| {}], so
    reading [args.sprt] does not throw; [?.] covers the other reads. *)
Definition processTest (test : Raw.t) : Test.t :=
  let args := JS.or_else (Raw.args test) (JS.VObj []) in
  let sprt := JS.get_opt args "sprt" in
  let llr := JS.coalesce (JS.get_opt sprt "llr") JS.VNull in
  let wins := JS.or_zero (JS.parseInt (JS.get_opt (Raw.results test) "wins")) in
  let losses := JS.or_zero (JS.parseInt (JS.get_opt (Raw.results test) "losses")) in
  let draws := JS.or_zero (JS.parseInt (JS.get_opt (Raw.results test) "draws")) in
  let totalGames := (wins + losses + draws)%float in
  let workers := JS.or_zero (JS.parseInt (Raw.workers test)) in
  let sprtElo0 :=
    if JS.truthy sprt then
      match JS.get_opt sprt "elo0" with
      | JS.VUndefined => None
      | elo0 =>
          let x := JS.parseFloat elo0 in
          if is_nan x then None else Some x
      end
    else None in
  {| Test.id := Raw._id test;
     Test.username := JS.coalesce (JS.get_opt args "username") (JS.VStr "N/A");
     Test.branch := JS.coalesce (JS.get_opt args "new_tag") (JS.VStr "N/A");
     Test.llr := match llr with
                 | JS.VNull => None
                 | v => Some (JS.parseFloat v)
                 end;
     Test.wml := (wins - losses)%float;
     Test.wins := wins;
     Test.losses := losses;
     Test.draws := draws;
     Test.totalGames := totalGames;
     Test.workers := workers;
     Test.sprtElo0 := sprtElo0 |}.

(** The comparison function handed to [sort]. *)
Definition compareTests (a b : Test.t) : float :=
  match Test.llr a, Test.llr b with
  | None, None => 0
  | None, Some _ => 1
  | Some _, None => (-1)
  | Some x, Some y => (y - x)%float
  end.

(** [Array.prototype.sort] with a comparison function: a stable sort that
    puts [x] after [y] when the comparison of [x] with [y] is positive, a
    [NaN] result counting as zero.  (For a function that is not a consistent
    ordering the language leaves the resulting order to the engine.) *)
Fixpoint sort_insert {A : Type} (comparefn : A → A → float) (x : A) (l : list A)
  : list A :=
  match l with
  | [] => [x]
  | y :: rest =>
      if (0 <? comparefn x y)%float
      then y :: sort_insert comparefn x rest
      else x :: l
  end.

Definition Array_sort {A : Type} (comparefn : A → A → float) (l : list A)
  : list A :=
  foldr (sort_insert comparefn) [] l.

(** [rawData] lists the API's mapping in enumeration order. *)
Definition processRawData (rawData : list (string * Raw.t)) : list Test.t :=
  Array_sort compareTests (map (λ entry, processTest entry.2) rawData).

(** ** The script's [main] and its input and output *)

Inductive Path : Type := LATEST_DATA_PATH | HISTORY_DATA_PATH.

(** What [saveJson] serialises into a file. *)
Inductive Saved : Type :=
| SavedTests (tests : list Test.t)
| SavedHistory (history : HistoryStore).

(** What reading and parsing the history file gives. *)
Inductive FileRead : Type :=
| ReadOk (history : HistoryStore)
| ENOENT
| ReadError.

(** What [fetch] gives: a rejection, or a response with its [ok] flag and
    its body, [None] when the body does not parse. *)
Inductive FetchOutcome : Type :=
| NetworkError
| Response (ok : bool) (body : option (list (string * Raw.t))).

Record World : Type := {
  historyFile : FileRead;
  api : FetchOutcome;
  writable : Path → bool;
  clock : nat → float
}.

(** Computations that may throw and that append to the list of files
    written so far. *)
Definition IO (A : Type) : Type := list (Path * Saved) → option A * list (Path * Saved).

Definition throw {A : Type} : IO A := λ log, (None, log).

#[global] Instance IO_ret : MRet IO := λ A a log, (Some a, log).
#[global] Instance IO_bind : MBind IO := λ A B k c log,
  match c log with
  | (Some a, log') => k a log'
  | (None, log') => (None, log')
  end.

Definition loadJson (w : World) (defaultValue : HistoryStore) : IO HistoryStore :=
  match historyFile w with
  | ReadOk data => mret data
  | ENOENT => mret defaultValue
  | ReadError => throw
  end.

Definition saveJson (w : World) (filePath : Path) (data : Saved) : IO unit :=
  λ log, if writable w filePath then (Some tt, log ++ [(filePath, data)])
         else (None, log).

Definition fetchFishtestData (w : World) : IO (list (string * Raw.t)) :=
  match api w with
  | NetworkError => throw
  | Response ok body =>
      if negb ok then throw
      else match body with
           | Some data => mret data
           | None => throw
           end
  end.

Definition main (w : World) : IO unit :=
  currentHistory ← loadJson w ∅;
  rawData ← fetchFishtestData w;
  let latestProcessedTests := processRawData rawData in
  let r := updateHistoricalData (clock w) currentHistory latestProcessedTests in
  saveJson w LATEST_DATA_PATH (SavedTests latestProcessedTests);;
  if historyChanged r
  then saveJson w HISTORY_DATA_PATH (SavedHistory (updatedHistory r))
  else mret tt.

(** [main().catch(... process.exit(1))]: the exit code and the files
    written. *)
Definition run (w : World) : Z * list (Path * Saved) :=
  match main w [] with
  | (Some _, log) => (0%Z, log)
  | (None, log) => (1%Z, log)
  end.

(** ** The page script *)

Definition LLR_BOUND : float := 2.94443897916644.

(** [formatLLR]; [None] is the [TypeError] of calling [toFixed] on what is
    not a Number. *)
Definition formatLLR (llrValue : JS.Val) : option string :=
  match llrValue with
  | JS.VNull | JS.VUndefined => Some "N/A"
  | JS.VNum x =>
      let formattedLLR := JS.Number_toFixed x 2 in
      let percentage := (x / LLR_BOUND * 100)%float in
      let percentage := JS.Math_max (-100) (JS.Math_min 100 percentage) in
      let roundedPercentage := JS.Math_round percentage in
      Some (formattedLLR +:+ " (" +:+ JS.Number_toString roundedPercentage +:+ "%)")
  | _ => None
  end.

(** Reading a property of a history point: the object has the three
    properties the script writes, and any other name reads [undefined]. *)
Definition point_prop (d : Point.t) (name : string) : JS.Val :=
  if String.eqb name "time" then JS.VNum (Point.time d)
  else if String.eqb name "wml" then JS.VNum (Point.wml d)
  else if String.eqb name "llr" then
    match Point.llr d with
    | Some v => JS.VNum v
    | None => JS.VNull
    end
  else JS.VUndefined.

Inductive Metric : Type := score | llr.

Definition Metric_eqb (a b : Metric) : bool :=
  match a, b with
  | score, score | llr, llr => true
  | _, _ => false
  end.

(** A chart point [{x, y}]. *)
Record XY : Type := { x : float; y : JS.Val }.

Record Dataset : Type := {
  label : string;
  data : list XY;
  hidden : bool
}.

(** The value axis; [None] is an [undefined] bound. *)
Record YAxis : Type := {
  min : option float;
  max : option float;
  beginAtZero : bool
}.

(** The chart object: its labels, [datasets[0]] (Score), [datasets[1]] (LLR)
    and [options.scales.y]. *)
Record Chart : Type := {
  labels : list float;
  datasets0 : Dataset;
  datasets1 : Dataset;
  scales_y : YAxis
}.

(** The page's global variables and the parts of the document the chart
    functions write. *)
Record Page : Type := {
  allTestsData : list Test.t;
  historicalData : HistoryStore;
  currentChart : option Chart;
  currentTrackingTestId : option string;
  currentTrackingBranchName : option string;
  currentVisibleMetric : Metric;
  chartTitle_textContent : string;
  chartContainer_shown : bool;
  testEndedMessage_shown : bool
}.

Inductive Effect : Type :=
| PreventDefault
| ScrollIntoView
| ChartDestroy
| ChartUpdate (mode : option string)
| ConsoleLog (message : string).

Definition isActive (p : Page) (testId : string) : bool :=
  existsb (λ test, String.eqb (Test.id test) testId) (allTestsData p).

Definition set_chart (p : Page) (c : Chart) : Page :=
  {| allTestsData := allTestsData p;
     historicalData := historicalData p;
     currentChart := Some c;
     currentTrackingTestId := currentTrackingTestId p;
     currentTrackingBranchName := currentTrackingBranchName p;
     currentVisibleMetric := currentVisibleMetric p;
     chartTitle_textContent := chartTitle_textContent p;
     chartContainer_shown := chartContainer_shown p;
     testEndedMessage_shown := testEndedMessage_shown p |}.

Definition set_data (d : Dataset) (points : list XY) : Dataset :=
  {| label := label d; data := points; hidden := hidden d |}.

Definition set_hidden (d : Dataset) (h : bool) : Dataset :=
  {| label := label d; data := data d; hidden := h |}.

(** The two series [updateChartData] builds from a test's history. *)
Definition scoreData (testHistory : list Point.t) : list XY :=
  map (λ d, {| x := (Point.time d * 1000)%float; y := point_prop d "score" |})
      testHistory.

Definition llrData (testHistory : list Point.t) : list XY :=
  map (λ d, {| x := (Point.time d * 1000)%float;
               y := match point_prop d "llr" with
                    | JS.VNull => JS.VNum nan
                    | v => v
                    end |})
      testHistory.

Definition updateChartData (p : Page) : Page * list Effect :=
  match currentChart p, currentTrackingTestId p with
  | Some chart, Some testId =>
      let testHistory := default [] (historicalData p !! testId) in
      if String.eqb testId "" then (p, [])
      else
      match testHistory with
      | [] =>
          (set_chart p
             {| labels := [];
                datasets0 := set_data (datasets0 chart) [];
                datasets1 := set_data (datasets1 chart) [];
                scales_y := scales_y chart |},
           [ConsoleLog ("No historical data found for " +:+ testId +:+
                        " to update chart.");
            ChartUpdate (Some "none")])
      | _ =>
          let chart' :=
            {| labels := labels chart;
               datasets0 := set_data (datasets0 chart) (scoreData testHistory);
               datasets1 := set_data (datasets1 chart) (llrData testHistory);
               scales_y := scales_y chart |} in
          let p' := set_chart p chart' in
          ({| allTestsData := allTestsData p';
              historicalData := historicalData p';
              currentChart := currentChart p';
              currentTrackingTestId := currentTrackingTestId p';
              currentTrackingBranchName := currentTrackingBranchName p';
              currentVisibleMetric := currentVisibleMetric p';
              chartTitle_textContent := chartTitle_textContent p';
              chartContainer_shown := chartContainer_shown p';
              testEndedMessage_shown := negb (isActive p testId) |},
           [ChartUpdate (Some "none")])
      end
  | _, _ => (p, [])
  end.

Definition toggleChartMetric (p : Page) (metricToShow : Metric)
  : Page * list Effect :=
  match currentChart p with
  | None => (p, [])
  | Some chart =>
      let isLLR := Metric_eqb metricToShow llr in
      let chart' :=
        {| labels := labels chart;
           datasets0 := set_hidden (datasets0 chart) isLLR;
           datasets1 := set_hidden (datasets1 chart) (negb isLLR);
           scales_y :=
             if isLLR
             then {| min := Some (-3)%float; max := Some 3%float;
                     beginAtZero := false |}
             else {| min := None; max := None; beginAtZero := true |} |} in
      ({| allTestsData := allTestsData p;
          historicalData := historicalData p;
          currentChart := Some chart';
          currentTrackingTestId := currentTrackingTestId p;
          currentTrackingBranchName := currentTrackingBranchName p;
          currentVisibleMetric := metricToShow;
          chartTitle_textContent := chartTitle_textContent p;
          chartContainer_shown := chartContainer_shown p;
          testEndedMessage_shown := testEndedMessage_shown p |},
       [ChartUpdate None])
  end.

(** [new Chart(ctx, ...)] as [initializeChart] configures it. *)
Definition newChart (visible : Metric) : Chart :=
  {| labels := [];
     datasets0 := {| label := "Score"; data := [];
                     hidden := negb (Metric_eqb visible score) |};
     datasets1 := {| label := "LLR"; data := [];
                     hidden := negb (Metric_eqb visible llr) |};
     scales_y :=
       if Metric_eqb visible llr
       then {| min := Some (-3)%float; max := Some 3%float;
               beginAtZero := false |}
       else {| min := None; max := None; beginAtZero := true |} |}.

Definition initializeChart (p : Page) (testId branchName : string)
  : Page * list Effect :=
  let destroyed :=
    match currentChart p with
    | Some _ => [ChartDestroy]
    | None => []
    end in
  let p1 :=
    {| allTestsData := allTestsData p;
       historicalData := historicalData p;
       currentChart := Some (newChart (currentVisibleMetric p));
       currentTrackingTestId := Some testId;
       currentTrackingBranchName := Some branchName;
       currentVisibleMetric := currentVisibleMetric p;
       chartTitle_textContent :=
         "Progress for: " +:+ branchName +:+ " (ID: " +:+
         String.substring 0 8 testId +:+ "...)";
       chartContainer_shown := true;
       testEndedMessage_shown := negb (isActive p testId) |} in
  let '(p2, e2) := toggleChartMetric p1 (currentVisibleMetric p1) in
  let '(p3, e3) := updateChartData p2 in
  (p3, destroyed ++ e2 ++ e3).

(** A click inside the table body: whether its target is a branch link, and
    the link's [data-test-id] and [data-branch-name]. *)
Record ClickEvent : Type := {
  isBranchLink : bool;
  dataset_testId : string;
  dataset_branchName : string
}.

Definition handleBranchClick (p : Page) (event : ClickEvent)
  : Page * list Effect :=
  if isBranchLink event then
    let testId := dataset_testId event in
    let branchName := dataset_branchName event in
    if bool_decide (Some testId = currentTrackingTestId p) then
      (p, [PreventDefault; ScrollIntoView])
    else
      let p1 :=
        {| allTestsData := allTestsData p;
           historicalData := historicalData p;
           currentChart := currentChart p;
           currentTrackingTestId := currentTrackingTestId p;
           currentTrackingBranchName := currentTrackingBranchName p;
           currentVisibleMetric := llr;
           chartTitle_textContent := chartTitle_textContent p;
           chartContainer_shown := chartContainer_shown p;
           testEndedMessage_shown := testEndedMessage_shown p |} in
      let '(p2, e2) := initializeChart p1 testId branchName in
      (p2, [PreventDefault] ++ e2 ++ [ScrollIntoView])
  else (p, []).

(** ** Vocabulary of the properties *)

(** Every sequence of the store is within the limit. *)
Definition capped (h : HistoryStore) : Prop :=
  map_Forall (λ _ s, length s ≤ MAX_HISTORY_POINTS) h.

(** A stored point and a test carry the same [wml] and [llr], compared as
    the script compares them: [===], with [null] equal to [null]. *)
Definition same_values (l : Point.t) (t : Test.t) : Prop :=
  JS.num_strict_eq (Point.wml l) (Test.wml t) = true
  ∧ llr_differs (Point.llr l) (Test.llr t) = false.

(** The order of two entries of the processed list, the first one earlier:
    a larger or equal llr first, a [null] llr after every Number. *)
Definition llr_ordered (a b : Test.t) : Prop :=
  match Test.llr a, Test.llr b with
  | Some x, Some y => (y <=? x)%float = true
  | Some _, None => True
  | None, None => True
  | None, Some _ => False
  end.

Definition sorted_by_llr (l : list Test.t) : Prop :=
  ∀ (i j : nat) (a b : Test.t),
    i < j → l !! i = Some a → l !! j = Some b → llr_ordered a b.

(** [x === y] holds exactly when both are zeros, or the same infinity, or
    the same finite Number. *)
Definition SFsame (x y : spec_float) : Prop :=
  match x, y with
  | S754_zero _, S754_zero _ => True
  | S754_infinity s, S754_infinity s' => s = s'
  | S754_finite s m e, S754_finite s' m' e' => s = s' ∧ m = m' ∧ e = e'
  | _, _ => False
  end.

(** A rounded result that is not zero and has the sign [s]. *)
Definition signed_nonzero (s : bool) (r : spec_float) : Prop :=
  match r with
  | S754_finite s' _ _ | S754_infinity s' => s' = s
  | _ => False
  end.

(** An operand of a subtraction, as an integer on the common exponent
    [ez]. *)
Definition aligned (s : bool) (m : positive) (e ez : Z) : Z :=
  cond_Zopp s (Z.pos (shl_align m e ez).1).

(** The llr of a processed test is [null] or a Number other than [NaN]. *)
Definition numeric_llr (t : Test.t) : Prop :=
  match Test.llr t with
  | Some v => is_nan v = false
  | None => True
  end.

(** The fetch fails: the request is rejected or the response is not 2xx. *)
Definition fetch_fails (w : World) : Prop :=
  api w = NetworkError ∨ ∃ body, api w = Response false body.

(** [clamp(llr / LLR_BOUND * 100, -100, 100)]. *)
Definition clamp_percentage (x : float) : float :=
  JS.Math_max (-100) (JS.Math_min 100 (x / LLR_BOUND * 100)).

(** ** Sample inputs *)

Definition sample_point : Point.t :=
  {| Point.time := 1700000000; Point.wml := 5; Point.llr := Some 1.5%float |}.

Definition sample_test (wml : float) (llr : option float) : Test.t :=
  {| Test.id := "a"; Test.username := JS.VStr "u"; Test.branch := JS.VStr "b";
     Test.llr := llr; Test.wml := wml; Test.wins := 10; Test.losses := 5;
     Test.draws := 3; Test.totalGames := 18; Test.workers := 2;
     Test.sprtElo0 := Some 0%float |}.

Definition sample_clock : nat → float := λ _, 1700000300123%float.

Definition one_point_store : HistoryStore := {[ "a" := [sample_point] ]}.

Definition full_store : HistoryStore :=
  {[ "a" := replicate MAX_HISTORY_POINTS sample_point ]}.

Definition overfull_store : HistoryStore :=
  {[ "a" := replicate (MAX_HISTORY_POINTS + 2) sample_point ]}.

(** An API record with the given [_id] and [args.sprt.llr]. *)
Definition raw_test (id : string) (llrValue : JS.Val) : Raw.t :=
  {| Raw._id := id;
     Raw.args :=
       JS.VObj [("username", JS.VStr "u"); ("new_tag", JS.VStr "b");
                ("sprt", JS.VObj [("llr", llrValue); ("elo0", JS.VNum 0)])];
     Raw.results :=
       JS.VObj [("wins", JS.VNum 10); ("losses", JS.VNum 5);
                ("draws", JS.VNum 3)];
     Raw.workers := JS.VNum 2 |}.

(** Three active tests, the second with an llr that is not numeric. *)
Definition rawData_text_llr : list (string * Raw.t) :=
  [("a", raw_test "a" (JS.VNum 1));
   ("b", raw_test "b" (JS.VStr "pending"));
   ("c", raw_test "c" (JS.VNum 2))].

(** The API answers with HTTP 500. *)
Definition failing_world : World :=
  {| historyFile := ReadOk one_point_store;
     api := Response false None;
     writable := λ _, true;
     clock := sample_clock |}.

(** A cycle in which the only test stands where its last point stands. *)
Definition quiet_world : World :=
  {| historyFile := ReadOk one_point_store;
     api := Response true (Some [("a", raw_test "a" (JS.VNum 1.5))]);
     writable := λ _, true;
     clock := sample_clock |}.

Definition sample_page : Page :=
  {| allTestsData := [sample_test 5 (Some 1.5%float)];
     historicalData := one_point_store;
     currentChart := Some (newChart llr);
     currentTrackingTestId := Some "a";
     currentTrackingBranchName := Some "b";
     currentVisibleMetric := llr;
     chartTitle_textContent := "Progress for: b (ID: a...)";
     chartContainer_shown := true;
     testEndedMessage_shown := false |}.

Definition sample_click : ClickEvent :=
  {| isBranchLink := true; dataset_testId := "a"; dataset_branchName := "b" |}.

(** ** The page script: loading and the status line *)

(** [getLatestUpdateTime]: the loop over the history visits every key once;
    a [time] that is [NaN] is never greater than [latestTime]. *)
Definition getLatestUpdateTime (history : HistoryStore) : option float :=
  let latestTime :=
    map_fold
      (λ _ (testEntries : list Point.t) (latestTime : float),
         match last testEntries with
         | Some lastEntry =>
             if (latestTime <? Point.time lastEntry)%float
             then Point.time lastEntry else latestTime
         | None => latestTime
         end)
      0%float history in
  if (0 <? latestTime)%float then Some latestTime else None.

(** [formatTimeAgo], [nowMs] being what [Date.now()] gives. *)
Definition formatTimeAgo (nowMs : float) (timestampSeconds : float) : string :=
  if negb (JS.truthy (JS.VNum timestampSeconds)) then "N/A"
  else
    let now := JS.Math_floor (nowMs / 1000) in
    let diffSeconds := (now - timestampSeconds)%float in
    if (diffSeconds <? 0)%float then "in the future?"
    else if (diffSeconds <? 60)%float
    then JS.Number_toString diffSeconds +:+ " sec ago"
    else
      let diffMinutes := JS.Math_floor (diffSeconds / 60) in
      if (diffMinutes <? 60)%float
      then JS.Number_toString diffMinutes +:+ " min ago"
      else
        let diffHours := JS.Math_floor (diffMinutes / 60) in
        if (diffHours <? 24)%float
        then JS.Number_toString diffHours +:+ " hr ago"
        else
          let diffDays := JS.Math_floor (diffHours / 24) in
          JS.Number_toString diffDays +:+ " day(s) ago".

(** [displayLastUpdateTime]: the text it gives the status line. *)
Definition displayLastUpdateTime (nowMs : float) (history : HistoryStore)
  : string :=
  match getLatestUpdateTime history with
  | Some latestTimestamp =>
      "Last update: " +:+ formatTimeAgo nowMs latestTimestamp
  | None => "Last update: N/A (or still loading)"
  end.

(** What [fetch] of one of the two data files gives the page: a rejection,
    or a response with its [ok] flag, its status and its body, [None] when
    the body does not parse. *)
Inductive FileResponse (A : Type) : Type :=
| Rejected
| Responded (ok : bool) (status : Z) (body : option A).

Arguments Rejected {A}.
Arguments Responded {A} ok status body.

(** What [loadDataFromFiles] writes into the document: the status line,
    and whether the table body was replaced by the error row. *)
Record LoadReport : Type := {
  lastUpdateTime_textContent : string;
  errorRow_shown : bool
}.

Definition set_loaded (p : Page) (tests : list Test.t) (history : HistoryStore)
  : Page :=
  {| allTestsData := tests;
     historicalData := history;
     currentChart := currentChart p;
     currentTrackingTestId := currentTrackingTestId p;
     currentTrackingBranchName := currentTrackingBranchName p;
     currentVisibleMetric := currentVisibleMetric p;
     chartTitle_textContent := chartTitle_textContent p;
     chartContainer_shown := chartContainer_shown p;
     testEndedMessage_shown := testEndedMessage_shown p |}.

(** The two values [loadDataFromFiles] assigns inside its [try], [None]
    when something there throws. *)
Definition loaded_data (latestResponse : FileResponse (list Test.t))
  (historyResponse : FileResponse HistoryStore)
  : option (list Test.t * HistoryStore) :=
  match latestResponse, historyResponse with
  | Responded latestOk _ latestBody, Responded historyOk historyStatus historyBody =>
      if negb latestOk then None
      else if negb historyOk && negb (historyStatus =? 404)%Z then None
      else
        match latestBody with
        | None => None
        | Some tests =>
            if historyOk then
              match historyBody with
              | Some history => Some (tests, history)
              | None => None
              end
            else Some (tests, ∅)
        end
  | _, _ => None
  end.

Definition loadDataFromFiles (nowMs : float)
  (latestResponse : FileResponse (list Test.t))
  (historyResponse : FileResponse HistoryStore) (p : Page)
  : Page * LoadReport :=
  match loaded_data latestResponse historyResponse with
  | Some (tests, history) =>
      (set_loaded p tests history,
       {| lastUpdateTime_textContent := displayLastUpdateTime nowMs history;
          errorRow_shown := false |})
  | None =>
      (set_loaded p [] ∅,
       {| lastUpdateTime_textContent := "Last update: Error loading";
          errorRow_shown := true |})
  end.

(** ** More vocabulary *)

(** The change gate of a test against a store; the candidate's time plays
    no part in it. *)
Definition passes_gate (h : HistoryStore) (t : Test.t) : bool :=
  differs (last (default [] (h !! Test.id t))) (newPoint 0 t).

(** Neither [wml] nor [llr] of the test is [NaN]. *)
Definition self_equal (t : Test.t) : Prop :=
  JS.num_strict_eq (Test.wml t) (Test.wml t) = true
  ∧ llr_differs (Test.llr t) (Test.llr t) = false.

(** No entry of the list is to come after a later one, as the comparison
    function sees them. *)
Definition in_place (l : list Test.t) : Prop :=
  StronglySorted (λ a b, (0 <? compareTests a b)%float = false) l.

(** The ids of the records of an API answer. *)
Definition raw_ids (rawData : list (string * Raw.t)) : gset string :=
  list_to_set (map (λ entry, Raw._id entry.2) rawData).

(** A newest point of the store: the last point of some test's sequence. *)
Definition newest_point (history : HistoryStore) (l : Point.t) : Prop :=
  ∃ (k : string) (s : list Point.t), history !! k = Some s ∧ last s = Some l.

(** ** More sample inputs *)

(** Two tests, the second without an llr. *)
Definition rawData_two : list (string * Raw.t) :=
  [("a", raw_test "a" (JS.VNum 1.5)); ("b", raw_test "b" JS.VNull)].

(** A record with nothing but its id. *)
Definition bare_record : Raw.t :=
  {| Raw._id := "z"; Raw.args := JS.VUndefined; Raw.results := JS.VUndefined;
     Raw.workers := JS.VUndefined |}.

(** The history file is missing. *)
Definition first_run_world : World :=
  {| historyFile := ENOENT;
     api := Response true (Some rawData_two);
     writable := λ _, true;
     clock := sample_clock |}.

(** The history file cannot be parsed. *)
Definition corrupt_world : World :=
  {| historyFile := ReadError;
     api := Response true (Some rawData_two);
     writable := λ _, true;
     clock := sample_clock |}.

(** The history file cannot be written. *)
Definition readonly_history_world : World :=
  {| historyFile := ReadOk one_point_store;
     api := Response true (Some rawData_two);
     writable := λ path, match path with
                        | LATEST_DATA_PATH => true
                        | HISTORY_DATA_PATH => false
                        end;
     clock := sample_clock |}.

Definition other_click : ClickEvent :=
  {| isBranchLink := true; dataset_testId := "b"; dataset_branchName := "br" |}.

Definition two_test_store : HistoryStore :=
  {[ "a" := [sample_point];
     "b" := [{| Point.time := 1700000600; Point.wml := 1; Point.llr := None |}] ]}.

(** * Properties *)

(** ** Strict equality of Numbers *)

Lemma SFeqb_same x y : SFeqb x y = true ↔ SFsame x y.
Proof.
  unfold SFeqb, SFcompare, SFsame.
  destruct x as [[]|[]| |[] m1 e1], y as [[]|[]| |[] m2 e2];
    try (split; (done || intuition congruence)).
  all: destruct (Z.compare_spec e1 e2) as [->| |];
    try (split; [done | intros (_ & _ & ->); lia]).
  all: change (PosDef.Pos.compare_cont Eq m1 m2) with (Pos.compare m1 m2).
  all: destruct (Pos.compare_spec m1 m2) as [->| |]; simpl;
    try (split; [done | intros (_ & -> & _); lia]); done.
Qed.

Lemma num_strict_eq_sym x y :
  JS.num_strict_eq x y = true → JS.num_strict_eq y x = true.
Proof.
  unfold JS.num_strict_eq. rewrite !FloatAxioms.eqb_spec, !SFeqb_same.
  destruct (Prim2SF x), (Prim2SF y); simpl; intuition congruence.
Qed.

Lemma num_strict_eq_trans x y z :
  JS.num_strict_eq x y = true → JS.num_strict_eq y z = true →
  JS.num_strict_eq x z = true.
Proof.
  unfold JS.num_strict_eq. rewrite !FloatAxioms.eqb_spec, !SFeqb_same.
  destruct (Prim2SF x), (Prim2SF y), (Prim2SF z); simpl; intuition congruence.
Qed.

Lemma llr_differs_sym a b : llr_differs a b = false → llr_differs b a = false.
Proof.
  destruct a, b; simpl; try done.
  rewrite !negb_false_iff. apply num_strict_eq_sym.
Qed.

Lemma llr_differs_trans a b c :
  llr_differs a b = false → llr_differs b c = false → llr_differs a c = false.
Proof.
  destruct a, b, c; simpl; try done.
  rewrite !negb_false_iff. apply num_strict_eq_trans.
Qed.

(** ** The order of Numbers

    Binary64 facts behind the comparison function of the sort, from the
    specification of the primitive operations: a difference that is not
    zero is rounded to a Number of the same sign, so the sign of [y - x]
    tells the order of [x] and [y]. *)

Section FloatOrder.
Local Open Scope Z_scope.

Lemma digits2_pos_bounds (m : positive) :
  2 ^ (Z.pos (digits2_pos m) - 1) ≤ Z.pos m < 2 ^ Z.pos (digits2_pos m).
Proof.
  induction m as [m IH|m IH|]; simpl digits2_pos.
  - rewrite Pos2Z.inj_succ. replace (Z.succ (Z.pos (digits2_pos m)) - 1)
      with (Z.succ (Z.pos (digits2_pos m) - 1)) by lia.
    rewrite !Z.pow_succ_r by lia. lia.
  - rewrite Pos2Z.inj_succ. replace (Z.succ (Z.pos (digits2_pos m)) - 1)
      with (Z.succ (Z.pos (digits2_pos m) - 1)) by lia.
    rewrite !Z.pow_succ_r by lia. lia.
  - simpl. lia.
Qed.

Lemma shr_1_m (mrs : shr_record) :
  0 ≤ shr_m mrs → shr_m (shr_1 mrs) = shr_m mrs / 2.
Proof.
  destruct mrs as [m r s]. cbn [shr_m]. intros Hm.
  destruct m as [|[p|p|]|p]; cbn [shr_1 shr_m].
  - reflexivity.
  - apply Z.div_unique with 1; lia.
  - apply Z.div_unique with 0; lia.
  - reflexivity.
  - lia.
Qed.

Lemma iter_pos_shr_m (p : positive) (mrs : shr_record) :
  0 ≤ shr_m mrs →
  shr_m (@SpecFloat.iter_pos shr_record shr_1 p mrs) = shr_m mrs / 2 ^ Z.pos p.
Proof.
  revert mrs. induction p as [p IH|p IH|]; intros mrs Hm; cbn [SpecFloat.iter_pos].
  - assert (H1 : 0 ≤ shr_m (shr_1 mrs)).
    { rewrite shr_1_m by done. apply Z.div_pos; lia. }
    assert (H2 : 0 ≤ shr_m (@SpecFloat.iter_pos shr_record shr_1 p (shr_1 mrs))).
    { rewrite IH by done. apply Z.div_pos; [done|]. apply Z.pow_pos_nonneg; lia. }
    rewrite IH by done. rewrite IH by done. rewrite shr_1_m by done.
    rewrite !Z.div_div by (try apply Z.pow_pos_nonneg; lia).
    f_equal. rewrite (Pos2Z.inj_xI p).
    replace (2 * Z.pos p + 1) with (1 + Z.pos p + Z.pos p) by lia.
    rewrite !Z.pow_add_r by lia. lia.
  - assert (H2 : 0 ≤ shr_m (@SpecFloat.iter_pos shr_record shr_1 p mrs)).
    { rewrite IH by done. apply Z.div_pos; [done|]. apply Z.pow_pos_nonneg; lia. }
    rewrite IH by done. rewrite IH by done.
    rewrite !Z.div_div by (try apply Z.pow_pos_nonneg; lia).
    f_equal. rewrite (Pos2Z.inj_xO p).
    replace (2 * Z.pos p) with (Z.pos p + Z.pos p) by lia.
    rewrite !Z.pow_add_r by lia. lia.
  - rewrite shr_1_m by done. done.
Qed.

Lemma shr_record_of_loc_m m l : shr_m (shr_record_of_loc m l) = m.
Proof. by destruct l as [|[]]. Qed.

(** Shifting a positive mantissa down to its canonical exponent leaves it
    positive when the exponent is not below the least one. *)
Lemma shr_fexp_pos (m : positive) (e : Z) (l : location) :
  SpecFloat.emin prec emax ≤ e →
  0 < shr_m (shr_fexp prec emax (Z.pos m) e l).1
  ∧ SpecFloat.emin prec emax ≤ (shr_fexp prec emax (Z.pos m) e l).2.
Proof.
  intros He. unfold shr_fexp, shr. simpl Zdigits2.
  pose proof (digits2_pos_bounds m) as [Hlo Hhi].
  destruct (fexp prec emax (Z.pos (digits2_pos m) + e) - e) as [|n|n] eqn:Hn;
    simpl; rewrite ?shr_record_of_loc_m; try (split; lia).
  rewrite iter_pos_shr_m by (rewrite shr_record_of_loc_m; lia).
  rewrite shr_record_of_loc_m. split; [|lia].
  assert (Hnd : Z.pos n ≤ Z.pos (digits2_pos m) - 1).
  { unfold fexp in Hn. unfold prec in *. lia. }
  apply Z.div_str_pos. split; [apply Z.pow_pos_nonneg; lia|].
  etransitivity; [|exact Hlo]. apply Z.pow_le_mono_r; lia.
Qed.

Lemma round_nearest_even_pos m l : 0 < m → 0 < round_nearest_even m l.
Proof.
  intros Hm. destruct l as [|[]]; simpl; try lia.
  destruct (Z.even m); lia.
Qed.

Lemma binary_round_aux_sign (s : bool) (m : positive) (e : Z) (l : location) :
  SpecFloat.emin prec emax ≤ e →
  signed_nonzero s (binary_round_aux prec emax s (Z.pos m) e l).
Proof.
  intros He. unfold binary_round_aux.
  destruct (shr_fexp_pos m e l He) as [H1 H2].
  destruct (shr_fexp prec emax (Z.pos m) e l) as [mrs' e']. simpl in H1, H2.
  pose proof (round_nearest_even_pos _ (loc_of_shr_record mrs') H1) as H3.
  destruct (round_nearest_even (shr_m mrs') (loc_of_shr_record mrs'))
    as [|m'|m'] eqn:Hm'; try lia.
  destruct (shr_fexp_pos m' e' loc_Exact H2) as [H4 H5].
  destruct (shr_fexp prec emax (Z.pos m') e' loc_Exact) as [mrs'' e''].
  simpl in H4, H5.
  destruct (shr_m mrs'') as [|m''|m'']; try lia.
  by destruct (e'' <=? emax - prec).
Qed.

Lemma binary_round_sign (s : bool) (m : positive) (e : Z) :
  SpecFloat.emin prec emax ≤ e →
  signed_nonzero s (binary_round prec emax s m e).
Proof.
  intros He. unfold binary_round.
  destruct (shl_align m e (fexp prec emax (Z.pos (digits2_pos m) + e)))
    as [mz ez] eqn:Hal.
  apply binary_round_aux_sign.
  unfold shl_align in Hal.
  destruct (fexp prec emax (Z.pos (digits2_pos m) + e) - e) eqn:Hd;
    injection Hal as <- <-; try done.
  unfold fexp. lia.
Qed.

Lemma valid_finite_bounds (s : bool) (m : positive) (e : Z) :
  valid_binary (S754_finite s m e) = true →
  -1074 ≤ e
  ∧ Z.pos m < 2 ^ 53
  ∧ (-1074 < e → 2 ^ 52 ≤ Z.pos m).
Proof.
  unfold valid_binary, SpecFloat.valid_binary, bounded, canonical_mantissa.
  intros Hv. apply andb_true_iff in Hv as [Hc _]. apply Z.eqb_eq in Hc.
  pose proof (digits2_pos_bounds m) as [Hlo Hhi].
  unfold fexp, SpecFloat.emin, prec, emax in Hc.
  split; [lia|]. split.
  - eapply Z.lt_le_trans; [exact Hhi|]. apply Z.pow_le_mono_r; lia.
  - intros He. replace (Z.pos (digits2_pos m)) with 53 in Hlo by lia. exact Hlo.
Qed.

Lemma shl_align_value (m : positive) (e ez : Z) :
  ez ≤ e → Z.pos (shl_align m e ez).1 = Z.pos m * 2 ^ (e - ez).
Proof.
  intros He. unfold shl_align.
  destruct (ez - e) as [|d|d] eqn:Hd; simpl.
  - replace (e - ez) with 0 by lia. lia.
  - lia.
  - replace (e - ez) with (Z.pos d) by lia.
    clear. induction d as [|d IHd] using Pos.peano_ind.
    + simpl. lia.
    + rewrite Pos.iter_succ, (Pos2Z.inj_succ d), Z.pow_succ_r by lia.
      rewrite (Pos2Z.inj_xO (Pos.iter xO m d)), IHd. lia.
Qed.

Lemma SFcompare_aligned s1 m1 e1 s2 m2 e2 :
  valid_binary (S754_finite s1 m1 e1) = true →
  valid_binary (S754_finite s2 m2 e2) = true →
  SFcompare (S754_finite s1 m1 e1) (S754_finite s2 m2 e2)
  = Some (aligned s1 m1 e1 (Z.min e1 e2) ?= aligned s2 m2 e2 (Z.min e1 e2)).
Proof.
  intros H1 H2.
  apply valid_finite_bounds in H1 as (He1 & Hm1 & Hn1).
  apply valid_finite_bounds in H2 as (He2 & Hm2 & Hn2).
  unfold aligned. rewrite !shl_align_value by lia.
  change (2 ^ 53) with 9007199254740992 in *.
  change (2 ^ 52) with 4503599627370496 in *.
  unfold SFcompare. f_equal.
  change (PosDef.Pos.compare_cont Eq m1 m2) with (Pos.compare m1 m2).
  assert (Hpow : ∀ a b, a < b → 2 ≤ 2 ^ (b - a)).
  { intros a b Hab. change 2 with (2 ^ 1) at 1. apply Z.pow_le_mono_r; lia. }
  destruct (Z.compare_spec e1 e2) as [->|Hlt|Hgt].
  - rewrite Z.min_id, Z.sub_diag. simpl (2 ^ 0). rewrite !Z.mul_1_r.
    destruct s1, s2; simpl; done.
  - rewrite Z.min_l by lia. rewrite Z.sub_diag. simpl (2 ^ 0).
    rewrite Z.mul_1_r. pose proof (Hpow _ _ Hlt).
    destruct s1, s2; unfold cond_Zopp; symmetry;
      first [apply Z.compare_lt_iff | apply Z.compare_gt_iff]; nia.
  - rewrite Z.min_r by lia. rewrite Z.sub_diag. simpl (2 ^ 0).
    rewrite Z.mul_1_r. pose proof (Hpow _ _ Hgt).
    destruct s1, s2; unfold cond_Zopp; symmetry;
      first [apply Z.compare_lt_iff | apply Z.compare_gt_iff]; nia.
Qed.

Lemma binary_normalize_sign (d ez : Z) :
  -1074 ≤ ez →
  SFltb (S754_zero false) (binary_normalize prec emax d ez false)
  = (0 <? d).
Proof.
  intros He. unfold binary_normalize. destruct d as [|d|d].
  - reflexivity.
  - pose proof (binary_round_sign false d ez He) as Hs.
    destruct (binary_round prec emax false d ez); simpl in Hs; try done;
      subst; reflexivity.
  - pose proof (binary_round_sign true d ez He) as Hs.
    destruct (binary_round prec emax true d ez); simpl in Hs; try done;
      subst; reflexivity.
Qed.

(** The sign of a difference is the order of its operands. *)
Lemma SFsub_sign (x y : spec_float) :
  valid_binary x = true → valid_binary y = true →
  SFltb (S754_zero false) (SFsub prec emax y x) = SFltb x y.
Proof.
  intros Hx Hy.
  destruct x as [sx|sx| |sx mx ex], y as [sy|sy| |sy my ey];
    try done; try (by destruct sx); try (by destruct sy);
    try (by destruct sx, sy).
  unfold SFsub.
  pose proof (valid_finite_bounds _ _ _ Hx) as (Hex & _).
  pose proof (valid_finite_bounds _ _ _ Hy) as (Hey & _).
  rewrite binary_normalize_sign by lia.
  unfold SFltb. rewrite (SFcompare_aligned _ _ _ _ _ _ Hx Hy).
  fold (aligned sy my ey (Z.min ey ex)). fold (aligned sx mx ex (Z.min ey ex)).
  rewrite (Z.min_comm ey ex).
  destruct (Z.compare_spec (aligned sx mx ex (Z.min ex ey))
              (aligned sy my ey (Z.min ex ey))) as [Heq|Hlt|Hgt];
    apply Z.ltb_lt || apply Z.ltb_ge; lia.
Qed.

Lemma sub_positive_iff (x y : float) : (0 <? y - x)%float = (x <? y)%float.
Proof.
  rewrite !ltb_spec, sub_spec.
  change (Prim2SF 0) with (S754_zero false).
  apply SFsub_sign; apply Prim2SF_valid.
Qed.

(** Every Number but [NaN] stands in the order with every other. *)
Lemma SFcompare_antisym (x y : spec_float) :
  SFcompare y x = option_map CompOpp (SFcompare x y).
Proof.
  destruct x as [sx|sx| |sx mx ex], y as [sy|sy| |sy my ey]; simpl;
    try done; try (by destruct sx); try (by destruct sy);
    try (by destruct sx, sy).
  change (PosDef.Pos.compare_cont Eq my mx) with (Pos.compare my mx).
  change (PosDef.Pos.compare_cont Eq mx my) with (Pos.compare mx my).
  rewrite (Z.compare_antisym ex ey), (Pos.compare_antisym mx my).
  destruct sx, sy; try done;
    destruct (ex ?= ey); simpl; try done;
    destruct (mx ?= my)%positive; done.
Qed.

Lemma leb_total (x y : float) :
  is_nan x = false → is_nan y = false →
  (x <? y)%float = false → (y <=? x)%float = true.
Proof.
  unfold is_nan. rewrite !negb_false_iff, !FloatAxioms.eqb_spec, ltb_spec, leb_spec.
  unfold SFeqb, SFltb, SFleb. intros Hx Hy. rewrite (SFcompare_antisym (Prim2SF x) (Prim2SF y)).
  destruct (Prim2SF x) as [sx|sx| |sx mx ex], (Prim2SF y) as [sy|sy| |sy my ey];
    try done; simpl in *;
    repeat match goal with |- context [if ?b then _ else _] => destruct b end;
    try done.
  all: destruct (ex ?= ey); simpl; try done;
       destruct (PosDef.Pos.compare_cont Eq mx my); simpl; done.
Qed.

Lemma ltb_leb (x y : float) : (x <? y)%float = true → (x <=? y)%float = true.
Proof.
  rewrite ltb_spec, leb_spec. unfold SFltb, SFleb.
  by destruct (SFcompare _ _) as [[]|].
Qed.

Lemma ltb_not_nan (x y : float) :
  (x <? y)%float = true → is_nan x = false ∧ is_nan y = false.
Proof.
  unfold is_nan. rewrite !negb_false_iff, !FloatAxioms.eqb_spec, ltb_spec.
  unfold SFltb, SFeqb.
  destruct (Prim2SF x) as [sx|sx| |sx mx ex], (Prim2SF y) as [sy|sy| |sy my ey];
    simpl; try done; intros _; rewrite ?Z.compare_refl;
    change (PosDef.Pos.compare_cont Eq) with Pos.compare;
    rewrite ?Pos.compare_refl;
    repeat match goal with |- context [if ?b then _ else _] => destruct b end;
    done.
Qed.

Lemma SFleb_trans (x y z : spec_float) :
  SFleb x y = true → SFleb y z = true → SFleb x z = true.
Proof.
  unfold SFleb, SFcompare.
  destruct x as [sx|sx| |sx mx ex], y as [sy|sy| |sy my ey],
           z as [sz|sz| |sz mz ez]; try done;
    try (by destruct sx); try (by destruct sy); try (by destruct sz);
    try (by destruct sx, sy); try (by destruct sx, sz);
    try (by destruct sy, sz); try (by destruct sx, sy, sz).
  change (PosDef.Pos.compare_cont Eq) with Pos.compare.
  destruct sx, sy, sz; try done;
    destruct (Z.compare_spec ex ey), (Z.compare_spec ey ez),
             (Z.compare_spec ex ez); try done; try lia; subst;
    destruct (Pos.compare_spec mx my), (Pos.compare_spec my mz),
             (Pos.compare_spec mx mz); simpl; try done; try lia.
Qed.

Lemma leb_trans (x y z : float) :
  (x <=? y)%float = true → (y <=? z)%float = true → (x <=? z)%float = true.
Proof. rewrite !leb_spec. apply SFleb_trans. Qed.

End FloatOrder.

(** ** One sequence *)

Lemma push_capped_length_le s p :
  length s ≤ MAX_HISTORY_POINTS → length (push_capped s p) ≤ MAX_HISTORY_POINTS.
Proof.
  intros Hs. unfold push_capped.
  destruct (Nat.ltb_spec MAX_HISTORY_POINTS (length (s ++ [p]))) as [Hlt|Hle];
    [|done].
  rewrite length_tl, length_app. simpl. lia.
Qed.

Lemma push_capped_full s p :
  MAX_HISTORY_POINTS ≤ length s → push_capped s p = tail s ++ [p].
Proof.
  intros Hs. unfold push_capped.
  destruct (Nat.ltb_spec MAX_HISTORY_POINTS (length (s ++ [p]))) as [Hlt|Hle].
  - destruct s as [|q s]; [unfold MAX_HISTORY_POINTS in Hs; simpl in Hs; lia|done].
  - rewrite length_app in Hle. simpl in Hle. lia.
Qed.

Lemma push_capped_last s p : last (push_capped s p) = Some p.
Proof.
  unfold push_capped. destruct (_ <? _)%nat eqn:Hlt; [|apply last_snoc].
  apply Nat.ltb_lt in Hlt. destruct s as [|q s].
  - simpl in Hlt. unfold MAX_HISTORY_POINTS in Hlt. lia.
  - simpl. apply last_snoc.
Qed.

Lemma step_seq_length_le now t s :
  length s ≤ MAX_HISTORY_POINTS → length (step_seq now t s) ≤ MAX_HISTORY_POINTS.
Proof.
  intros Hs. unfold step_seq. destruct (differs _ _); [|done].
  by apply push_capped_length_le.
Qed.

Lemma step_seq_length_full now t s :
  MAX_HISTORY_POINTS ≤ length s → length (step_seq now t s) = length s.
Proof.
  intros Hs. unfold step_seq. destruct (differs _ _); [|done].
  rewrite push_capped_full by done. rewrite length_app, length_tl. simpl.
  unfold MAX_HISTORY_POINTS in Hs. lia.
Qed.

Lemma differs_false l p :
  differs l p = false ↔
  ∃ q, l = Some q
       ∧ JS.num_strict_eq (Point.wml q) (Point.wml p) = true
       ∧ llr_differs (Point.llr q) (Point.llr p) = false.
Proof.
  destruct l as [q|]; simpl.
  - rewrite orb_false_iff, negb_false_iff. split.
    + intros [H1 H2]. eauto.
    + intros (q' & [= <-] & H1 & H2). done.
  - split; [done|]. by intros (q & ? & _).
Qed.

(** After a pass, the last point carries the test's values, provided these
    values equal themselves (neither is [NaN]). *)
Lemma step_seq_last_same now t s l :
  last (step_seq now t s) = Some l →
  JS.num_strict_eq (Test.wml t) (Test.wml t) = true →
  llr_differs (Test.llr t) (Test.llr t) = false →
  same_values l t.
Proof.
  unfold step_seq. intros Hl Hw Hr.
  destruct (differs (last s) (newPoint now t)) eqn:Hd.
  - rewrite push_capped_last in Hl. injection Hl as <-. by split.
  - apply differs_false in Hd as (q & Hq & H1 & H2).
    rewrite Hq in Hl. injection Hl as <-. by split.
Qed.

(** ** One pass of the [forEach] body *)

Lemma visit_lookup now acc t :
  (visit now acc t).1 !! Test.id t
  = Some (step_seq now t (default [] (acc.1 !! Test.id t))).
Proof.
  destruct acc as [h ch]. unfold visit, step_seq. simpl.
  destruct (h !! Test.id t) as [s|] eqn:Hs; simpl.
  - rewrite Hs. simpl. destruct (differs _ _); simpl.
    + by rewrite lookup_insert_eq.
    + done.
  - rewrite lookup_insert_eq. simpl. by rewrite lookup_insert_eq.
Qed.

Lemma visit_lookup_ne now acc t k :
  k ≠ Test.id t → (visit now acc t).1 !! k = acc.1 !! k.
Proof.
  intros Hk. destruct acc as [h ch]. unfold visit. simpl.
  destruct (h !! Test.id t) as [s|] eqn:Hs; simpl.
  - rewrite Hs. simpl. destruct (differs _ _); simpl; [|done].
    by rewrite lookup_insert_ne.
  - rewrite lookup_insert_eq. simpl.
    by rewrite !lookup_insert_ne.
Qed.

Lemma visit_capped now acc t : capped acc.1 → capped (visit now acc t).1.
Proof.
  intros Hc i s Hs.
  destruct (decide (i = Test.id t)) as [->|Hne].
  - rewrite visit_lookup in Hs. injection Hs as <-.
    apply step_seq_length_le.
    destruct (acc.1 !! Test.id t) as [s0|] eqn:H0; simpl.
    + by apply (Hc _ _ H0).
    + unfold MAX_HISTORY_POINTS. lia.
  - rewrite visit_lookup_ne in Hs by done. by apply (Hc _ _ Hs).
Qed.

(** ** The whole [forEach] *)

Lemma forEach_lookup_notin clock k tests acc i :
  i ∉ map Test.id tests → (forEach clock k tests acc).1 !! i = acc.1 !! i.
Proof.
  revert k acc. induction tests as [|t tests IH]; intros k acc Hi; [done|].
  simpl in *. apply not_elem_of_cons in Hi as [Hne Hi].
  rewrite IH by done. by apply visit_lookup_ne.
Qed.

Lemma forEach_lookup_once clock k l1 t l2 acc :
  Test.id t ∉ map Test.id (l1 ++ l2) →
  (forEach clock k (l1 ++ t :: l2) acc).1 !! Test.id t
  = Some (step_seq (clock (k + length l1)) t (default [] (acc.1 !! Test.id t))).
Proof.
  revert k acc. induction l1 as [|u l1 IH]; intros k acc Hi; simpl in *.
  - rewrite forEach_lookup_notin by done. rewrite visit_lookup.
    by rewrite Nat.add_0_r.
  - apply not_elem_of_cons in Hi as [Hne Hi].
    rewrite IH by done. rewrite visit_lookup_ne by done.
    by replace (S k + length l1) with (k + S (length l1)) by lia.
Qed.

Lemma forEach_is_Some clock k tests acc i :
  i ∈ map Test.id tests ∨ is_Some (acc.1 !! i) →
  is_Some ((forEach clock k tests acc).1 !! i).
Proof.
  revert k acc. induction tests as [|t tests IH]; intros k acc Hi; simpl in *.
  - destruct Hi as [Hi|Hi]; [by apply elem_of_nil in Hi|done].
  - apply IH. destruct (decide (i = Test.id t)) as [->|Hne].
    + right. rewrite visit_lookup. done.
    + destruct Hi as [Hi|Hi].
      * apply elem_of_cons in Hi as [Hi|Hi]; [done|by left].
      * right. by rewrite visit_lookup_ne.
Qed.

Lemma forEach_capped clock k tests acc :
  capped acc.1 → capped (forEach clock k tests acc).1.
Proof.
  revert k acc. induction tests as [|t tests IH]; intros k acc Hc; [done|].
  simpl. apply IH. by apply visit_capped.
Qed.

(** A sequence at or over the limit keeps its length, however often its
    test is listed. *)
Lemma forEach_length_full clock k tests acc i s :
  acc.1 !! i = Some s → MAX_HISTORY_POINTS ≤ length s →
  ∃ s', (forEach clock k tests acc).1 !! i = Some s' ∧ length s' = length s.
Proof.
  revert k acc s. induction tests as [|t tests IH]; intros k acc s Hs Hlen; simpl.
  - eauto.
  - destruct (decide (i = Test.id t)) as [->|Hne].
    + edestruct (IH (S k) (visit (clock k) acc t)) as (s' & Hs' & Hl').
      * rewrite visit_lookup, Hs. done.
      * simpl. by rewrite step_seq_length_full.
      * exists s'. split; [done|]. rewrite Hl'. simpl. by apply step_seq_length_full.
    + apply IH; [|done]. by rewrite visit_lookup_ne.
Qed.

(** ** The clean-up loop *)

Lemma cleanup_lookup active acc i :
  (cleanup active acc).1 !! i
  = if decide (i ∈ active) then acc.1 !! i else None.
Proof.
  unfold cleanup.
  pose (P := λ (r : HistoryStore * bool) (m : HistoryStore),
    ∀ j, r.1 !! j = if decide (j ∈ active) then acc.1 !! j
                   else if decide (is_Some (m !! j)) then None else acc.1 !! j).
  assert (HP : P (map_fold
    (λ testId _ (r : HistoryStore * bool),
       if decide (testId ∈ active) then r else (delete testId r.1, true))
    acc acc.1) acc.1).
  { apply (map_fold_weak_ind P).
    - intros j. rewrite lookup_empty. destruct (decide (j ∈ active)); [done|].
      rewrite decide_False; [done|]. by intros [? ?].
    - intros k x m r Hk IH j. specialize (IH j).
      destruct (decide (k ∈ active)) as [Hin|Hout].
      + rewrite IH. destruct (decide (j ∈ active)); [done|].
        destruct (decide (j = k)) as [->|]; [done|].
        by rewrite lookup_insert_ne.
      + simpl. destruct (decide (j = k)) as [->|Hne].
        * rewrite lookup_delete_eq, lookup_insert_eq.
          rewrite decide_False by done. rewrite decide_True; done.
        * rewrite lookup_delete_ne, lookup_insert_ne by done. done. }
  specialize (HP i). rewrite HP.
  destruct (decide (i ∈ active)); [done|].
  destruct (acc.1 !! i) eqn:Hi.
  - rewrite decide_True; [done|]. by eexists.
  - by case_decide.
Qed.

(** The flag after the clean-up: raised before, or some key was deleted. *)
Lemma cleanup_changed active acc :
  (cleanup active acc).2 = acc.2 || negb (bool_decide (dom acc.1 ⊆ active)).
Proof.
  unfold cleanup.
  pose (P := λ (r : HistoryStore * bool) (m : HistoryStore),
    r.2 = acc.2 || negb (bool_decide (dom m ⊆ active))).
  apply (map_fold_weak_ind P); unfold P.
  - rewrite dom_empty_L. rewrite bool_decide_eq_true_2 by set_solver.
    by rewrite orb_false_r.
  - intros k x m r Hk IH. rewrite dom_insert_L.
    destruct (decide (k ∈ active)) as [Hin|Hout].
    + rewrite IH. f_equal. f_equal. apply bool_decide_ext. set_solver.
    + simpl. rewrite bool_decide_eq_false_2 by set_solver.
      by rewrite orb_true_r.
Qed.

Lemma updateHistoricalData_lookup clock h tests i :
  updatedHistory (updateHistoricalData clock h tests) !! i
  = if decide (i ∈ map Test.id tests)
    then (forEach clock 0 tests (h, false)).1 !! i else None.
Proof.
  unfold updateHistoricalData. simpl. rewrite cleanup_lookup.
  unfold activeTestIds.
  destruct (decide (i ∈ map Test.id tests)) as [Hin|Hout].
  - rewrite decide_True; [done|]. by apply elem_of_list_to_set.
  - rewrite decide_False; [done|]. by rewrite elem_of_list_to_set.
Qed.

Lemma visit_unchanged now acc t :
  (visit now acc t).2 = false → acc.2 = false ∧ (visit now acc t).1 = acc.1.
Proof.
  destruct acc as [h ch]. unfold visit.
  destruct (h !! Test.id t) as [s|] eqn:Hs.
  - destruct (differs _ _); simpl; [done|]. auto.
  - destruct (differs _ _); simpl; done.
Qed.

Lemma forEach_unchanged clock k tests acc :
  (forEach clock k tests acc).2 = false →
  acc.2 = false ∧ (forEach clock k tests acc).1 = acc.1.
Proof.
  revert k acc. induction tests as [|t tests IH]; intros k acc Hf; [done|].
  simpl in *. apply IH in Hf as [Hv ->]. by apply visit_unchanged in Hv.
Qed.

(** When the flag comes back false the store comes back as it was given. *)
Lemma historyChanged_false_unchanged clock h tests :
  historyChanged (updateHistoricalData clock h tests) = false →
  updatedHistory (updateHistoricalData clock h tests) = h.
Proof.
  unfold updateHistoricalData. simpl. rewrite cleanup_changed.
  intros Hf. apply orb_false_iff in Hf as [Hf Hd].
  apply forEach_unchanged in Hf as [_ Hh].
  apply negb_false_iff, bool_decide_eq_true_1 in Hd.
  apply map_eq. intros i. rewrite cleanup_lookup.
  destruct (decide (i ∈ activeTestIds tests)) as [Hi|Hi]; [by rewrite Hh|].
  rewrite Hh in Hd. symmetry. apply not_elem_of_dom. set_solver.
Qed.

Lemma elem_of_ids_middle (l1 : list Test.t) (t : Test.t) (l2 : list Test.t) :
  Test.id t ∈ map Test.id (l1 ++ t :: l2).
Proof.
  rewrite map_app. apply elem_of_app. right. simpl. apply list_elem_of_here.
Qed.

(** ** The history store manager *)

(** C1. When every sequence of the input store has at most 864 points, so
    has every sequence of the store [updateHistoricalData] returns, for any
    list of tests; and when a test listed once has a full sequence of 864
    points and its candidate passes the change gate, its new sequence is the
    old one without its first (oldest) point, followed by the candidate. *)
Theorem C1_history_cap (clock : nat → float) (h : HistoryStore)
  (tests : list Test.t) :
  capped h →
  capped (updatedHistory (updateHistoricalData clock h tests))
  ∧ ∀ l1 t l2 s,
      tests = l1 ++ t :: l2 →
      Test.id t ∉ map Test.id (l1 ++ l2) →
      h !! Test.id t = Some s →
      length s = MAX_HISTORY_POINTS →
      differs (last s) (newPoint (clock (length l1)) t) = true →
      updatedHistory (updateHistoricalData clock h tests) !! Test.id t
      = Some (tail s ++ [newPoint (clock (length l1)) t]).
Proof.
  intros Hc. split.
  - intros i s Hs. rewrite updateHistoricalData_lookup in Hs.
    case_decide; [|done].
    by apply (forEach_capped clock 0 tests (h, false) Hc i s).
  - intros l1 t l2 s -> Hi Hs Hlen Hd. rewrite updateHistoricalData_lookup.
    rewrite decide_True by apply elem_of_ids_middle.
    rewrite forEach_lookup_once by done. simpl. rewrite Hs. simpl.
    unfold step_seq. rewrite Hd. f_equal. apply push_capped_full. lia.
Qed.

Lemma C1_history_cap_witness :
  capped full_store
  ∧ capped (updatedHistory
              (updateHistoricalData sample_clock full_store
                 [sample_test 6 (Some 1.5%float)]))
  ∧ updatedHistory
      (updateHistoricalData sample_clock full_store
         [sample_test 6 (Some 1.5%float)]) !! "a"
    = Some (tail (replicate MAX_HISTORY_POINTS sample_point)
            ++ [newPoint (sample_clock 0) (sample_test 6 (Some 1.5%float))]).
Proof.
  assert (Hc : capped full_store).
  { apply map_Forall_singleton. rewrite length_replicate. reflexivity. }
  destruct (C1_history_cap sample_clock full_store
              [sample_test 6 (Some 1.5%float)] Hc) as [H1 H2].
  split; [exact Hc|]. split; [exact H1|].
  apply (H2 [] (sample_test 6 (Some 1.5%float)) []
            (replicate MAX_HISTORY_POINTS sample_point)).
  - reflexivity.
  - apply not_elem_of_nil.
  - apply lookup_singleton_eq.
  - apply length_replicate.
  - vm_compute. reflexivity.
Defined.



(** The gate compares with [!==]: a test whose llr is [NaN] differs from
    its own last point, and gets a new point at every cycle. *)
Example nan_llr_appended_again :
  updatedHistory
    (updateHistoricalData sample_clock
       {[ "a" := [newPoint (sample_clock 0) (sample_test 5 (Some nan))] ]}
       [sample_test 5 (Some nan)]) !! "a"
  = Some [newPoint (sample_clock 0) (sample_test 5 (Some nan));
          newPoint (sample_clock 0) (sample_test 5 (Some nan))].
Proof. vm_compute. reflexivity. Qed.


(** C10. A sequence that enters the call longer than 864 points, for a test
    of the list, leaves it with the same length, so still longer than 864;
    when the test is listed once the sequence is either untouched or has
    lost its first point and gained the candidate, the latter exactly when
    the candidate passes the change gate. *)
Theorem C10_cap_not_established (clock : nat → float) (h : HistoryStore)
  (tests : list Test.t) (i : string) (s : list Point.t) :
  h !! i = Some s →
  MAX_HISTORY_POINTS < length s →
  i ∈ map Test.id tests →
  (∃ s', updatedHistory (updateHistoricalData clock h tests) !! i = Some s'
         ∧ length s' = length s
         ∧ MAX_HISTORY_POINTS < length s')
  ∧ ∀ l1 t l2,
      tests = l1 ++ t :: l2 → Test.id t = i →
      i ∉ map Test.id (l1 ++ l2) →
      updatedHistory (updateHistoricalData clock h tests) !! i
      = Some (if differs (last s) (newPoint (clock (length l1)) t)
              then tail s ++ [newPoint (clock (length l1)) t]
              else s).
Proof.
  intros Hs Hlen Hi. rewrite updateHistoricalData_lookup.
  rewrite decide_True by done. split.
  - destruct (forEach_length_full clock 0 tests (h, false) i s Hs)
      as (s' & Hs' & Hl'); [lia|].
    exists s'. rewrite Hl'. done.
  - intros l1 t l2 -> <- Hi'. rewrite forEach_lookup_once by done.
    simpl. rewrite Hs. simpl. f_equal. unfold step_seq.
    destruct (differs _ _); [|done]. apply push_capped_full. lia.
Qed.

Lemma C10_cap_not_established_witness :
  overfull_store !! "a" = Some (replicate (MAX_HISTORY_POINTS + 2) sample_point)
  ∧ MAX_HISTORY_POINTS < length (replicate (MAX_HISTORY_POINTS + 2) sample_point)
  ∧ "a" ∈ map Test.id [sample_test 6 None]
  ∧ ∃ s', updatedHistory
            (updateHistoricalData sample_clock overfull_store
               [sample_test 6 None]) !! "a" = Some s'
          ∧ length s' = MAX_HISTORY_POINTS + 2.
Proof.
  assert (H1 : overfull_store !! "a"
               = Some (replicate (MAX_HISTORY_POINTS + 2) sample_point)).
  { apply lookup_singleton_eq. }
  assert (H2 : MAX_HISTORY_POINTS
               < length (replicate (MAX_HISTORY_POINTS + 2) sample_point)).
  { rewrite length_replicate. lia. }
  assert (H3 : "a" ∈ map Test.id [sample_test 6 None]).
  { apply list_elem_of_singleton. reflexivity. }
  split; [exact H1|]. split; [exact H2|]. split; [exact H3|].
  destruct (C10_cap_not_established sample_clock overfull_store
              [sample_test 6 None] "a" _ H1 H2 H3) as [(s' & Hs' & Hl & _) _].
  exists s'. split; [exact Hs'|]. rewrite Hl. apply length_replicate.
Defined.

(** ** The snapshot processor *)

Example processTest_sample :
  processTest (raw_test "a" (JS.VNum 1.5)) = sample_test 5 (Some 1.5%float).
Proof. vm_compute. reflexivity. Qed.

(** [Array.prototype.sort] orders its input by any relation the comparison
    function decides consistently on the elements at hand. *)
Section Sorting.
Context {A : Type}.
Variable comparefn : A → A → float.
Variable R : A → A → Prop.
Variable Q : A → Prop.
Hypothesis after : ∀ x y, Q x → Q y → (0 <? comparefn x y)%float = true → R y x.
Hypothesis before : ∀ x y, Q x → Q y → (0 <? comparefn x y)%float = false → R x y.
Hypothesis trans : ∀ x y z, Q x → Q y → Q z → R x y → R y z → R x z.

Lemma sort_insert_perm (x : A) (l : list A) :
  sort_insert comparefn x l ≡ₚ x :: l.
Proof.
  induction l as [|y l IH]; simpl; [done|].
  destruct (0 <? comparefn x y)%float; [|done].
  rewrite IH. apply Permutation_swap.
Qed.

Lemma Array_sort_perm (l : list A) : Array_sort comparefn l ≡ₚ l.
Proof.
  induction l as [|x l IH]; simpl; [done|].
  unfold Array_sort in *. simpl. rewrite sort_insert_perm. by rewrite IH.
Qed.

Lemma sort_insert_sorted (x : A) (l : list A) :
  Q x → Forall Q l → StronglySorted R l →
  StronglySorted R (sort_insert comparefn x l).
Proof.
  intros Hx Hl Hs. induction Hs as [|y l Hs IH Hy]; simpl.
  - repeat constructor.
  - apply Forall_cons in Hl as [Hqy Hl].
    destruct (0 <? comparefn x y)%float eqn:Hc.
    + constructor; [by apply IH|].
      rewrite sort_insert_perm. constructor; [by apply after|done].
    + constructor; [by constructor|].
      assert (Hxy : R x y) by (by apply before).
      constructor; [done|].
      rewrite Forall_forall in Hy, Hl. apply Forall_forall. intros z Hz.
      apply (trans x y z); auto.
Qed.

Lemma Array_sort_sorted (l : list A) :
  Forall Q l → StronglySorted R (Array_sort comparefn l).
Proof.
  induction l as [|x l IH]; intros Hl; unfold Array_sort in *; simpl.
  - constructor.
  - apply Forall_cons in Hl as [Hx Hl].
    apply sort_insert_sorted; [done| |by apply IH].
    fold (Array_sort comparefn l). by rewrite Array_sort_perm.
Qed.
End Sorting.

Lemma StronglySorted_lookup {A : Type} (R : A → A → Prop) (l : list A) :
  StronglySorted R l →
  ∀ (i j : nat) (a b : A), (i < j)%nat → l !! i = Some a → l !! j = Some b → R a b.
Proof.
  induction 1 as [|x l Hs IH Hx]; intros i j a b Hij Ha Hb; [done|].
  destruct j as [|j]; [lia|]. simpl in Hb. destruct i as [|i].
  - simpl in Ha. injection Ha as <-. rewrite Forall_forall in Hx.
    apply Hx. by eapply list_elem_of_lookup_2.
  - simpl in Ha. apply (IH i j); [lia|done|done].
Qed.

Lemma compareTests_after (a b : Test.t) :
  numeric_llr a → numeric_llr b →
  (0 <? compareTests a b)%float = true → llr_ordered b a.
Proof.
  unfold numeric_llr, compareTests, llr_ordered.
  destruct (Test.llr a) as [x|], (Test.llr b) as [y|]; try done.
  intros _ _. rewrite sub_positive_iff. apply ltb_leb.
Qed.

Lemma compareTests_before (a b : Test.t) :
  numeric_llr a → numeric_llr b →
  (0 <? compareTests a b)%float = false → llr_ordered a b.
Proof.
  unfold numeric_llr, compareTests, llr_ordered.
  destruct (Test.llr a) as [x|], (Test.llr b) as [y|]; try done.
  intros Hx Hy. rewrite sub_positive_iff. by apply leb_total.
Qed.

Lemma llr_ordered_trans (a b c : Test.t) :
  llr_ordered a b → llr_ordered b c → llr_ordered a c.
Proof.
  unfold llr_ordered.
  destruct (Test.llr a) as [x|], (Test.llr b) as [y|], (Test.llr c) as [z|];
    try done.
  intros Hxy Hyz. by apply (leb_trans z y x).
Qed.

(** Where no llr is [NaN] the processed list is in the claimed order. *)
Theorem processRawData_sorted_when_numeric (rawData : list (string * Raw.t)) :
  Forall (λ entry, numeric_llr (processTest entry.2)) rawData →
  sorted_by_llr (processRawData rawData).
Proof.
  intros Hn. unfold sorted_by_llr, processRawData.
  apply StronglySorted_lookup.
  apply (Array_sort_sorted compareTests llr_ordered numeric_llr).
  - apply compareTests_after.
  - apply compareTests_before.
  - intros x y z _ _ _. apply llr_ordered_trans.
  - by apply Forall_map.
Qed.

Lemma leb_nan_r (v : float) : (v <=? nan)%float = false.
Proof.
  rewrite leb_spec. change (Prim2SF nan) with S754_nan.
  unfold SFleb. by destruct (Prim2SF v) as [[]|[]| |[] ? ?].
Qed.

Lemma leb_nan_l (v : float) : (nan <=? v)%float = false.
Proof.
  rewrite leb_spec. change (Prim2SF nan) with S754_nan. reflexivity.
Qed.

(** A list of two or more tests, none with a [null] llr and one with a
    [NaN] llr, is not in the claimed order, however it is arranged. *)
Lemma nan_llr_not_sorted (l : list Test.t) (b : Test.t) :
  b ∈ l → Test.llr b = Some nan →
  Forall (λ t, is_Some (Test.llr t)) l →
  2 ≤ length l →
  ¬ sorted_by_llr l.
Proof.
  intros Hb Hnan Hall Hlen Hsorted.
  apply list_elem_of_lookup in Hb as [k Hk].
  rewrite Forall_forall in Hall.
  destruct k as [|k].
  - destruct (lookup_lt_is_Some_2 l 1) as [c Hc]; [lia|].
    assert (Hin : c ∈ l) by (by eapply list_elem_of_lookup_2).
    destruct (Hall c Hin) as [v Hv].
    assert (Ho : llr_ordered b c) by (apply (Hsorted 0 1); [lia|done|done]).
    unfold llr_ordered in Ho. rewrite Hnan, Hv, leb_nan_r in Ho. done.
  - destruct (lookup_lt_is_Some_2 l 0) as [c Hc]; [lia|].
    assert (Hin : c ∈ l) by (by eapply list_elem_of_lookup_2).
    destruct (Hall c Hin) as [v Hv].
    assert (Ho : llr_ordered c b) by (apply (Hsorted 0 (S k)); [lia|done|done]).
    unfold llr_ordered in Ho. rewrite Hnan, Hv, leb_nan_l in Ho. done.
Qed.

(** C4, evaluated where it fails.  An [args.sprt.llr] that is not numeric
    passes through [parseFloat] as [NaN] (only [sprtElo0] is reset to [null]
    on [NaN]); the comparison function then answers [NaN] for every pair with
    that entry, and the sorted list comes out as 1, NaN, 2: neither is 1
    greater than or equal to 2 two places further, nor does [NaN] stand in
    the order with either neighbour.  No arrangement of the three processed
    tests is in the claimed order, so the outcome does not depend on how the
    engine sorts. *)
Theorem C4_text_llr_breaks_order :
  map Test.llr (processRawData rawData_text_llr)
  = [Some 1%float; Some nan; Some 2%float]
  ∧ ¬ sorted_by_llr (processRawData rawData_text_llr)
  ∧ ∀ l, l ≡ₚ map (λ entry, processTest entry.2) rawData_text_llr →
         ¬ sorted_by_llr l.
Proof.
  assert (Hany : ∀ l, l ≡ₚ map (λ entry, processTest entry.2) rawData_text_llr →
                      ¬ sorted_by_llr l).
  { intros l Hp.
    apply (nan_llr_not_sorted l (processTest (raw_test "b" (JS.VStr "pending")))).
    - rewrite Hp. simpl. apply list_elem_of_further, list_elem_of_here.
    - vm_compute. reflexivity.
    - rewrite Hp. simpl. repeat constructor; vm_compute; eauto.
    - rewrite Hp. simpl. lia. }
  split; [vm_compute; reflexivity|]. split; [|exact Hany].
  apply Hany. unfold processRawData. apply Array_sort_perm.
Qed.

(** ** [main] *)

Lemma bind_Some {A B : Type} (c : IO A) (k : A → IO B) log b log' :
  (c ≫= k) log = (Some b, log') →
  ∃ a log1, c log = (Some a, log1) ∧ k a log1 = (Some b, log').
Proof.
  unfold mbind, IO_bind. destruct (c log) as [[a|] log1]; [|done].
  intros Hk. by exists a, log1.
Qed.

Lemma loadJson_Some w d log h log1 :
  loadJson w d log = (Some h, log1) →
  log1 = log ∧ (historyFile w = ReadOk h ∨ historyFile w = ENOENT ∧ h = d).
Proof.
  unfold loadJson, mret, IO_ret, throw.
  destruct (historyFile w); intros [= <- <-]; auto.
Qed.

Lemma fetchFishtestData_Some w log raw log1 :
  fetchFishtestData w log = (Some raw, log1) →
  log1 = log ∧ api w = Response true (Some raw).
Proof.
  unfold fetchFishtestData, mret, IO_ret, throw.
  destruct (api w) as [|[] [data|]]; simpl; intros [= <- <-]; auto.
Qed.

Lemma saveJson_Some w path d log u log1 :
  saveJson w path d log = (Some u, log1) →
  writable w path = true ∧ log1 = log ++ [(path, d)].
Proof.
  unfold saveJson. destruct (writable w path); intros [= <-]; auto.
Qed.

Lemma fetch_fails_throws w log :
  fetch_fails w → fetchFishtestData w log = (None, log).
Proof.
  unfold fetchFishtestData. intros [->|[body ->]]; reflexivity.
Qed.

(** C7. When the fetch fails, by a network error or by a response that is
    not 2xx, the script exits with code 1 and has written no file: neither
    the snapshot nor the history. *)
Theorem C7_fetch_failure_is_fatal (w : World) :
  fetch_fails w → run w = (1%Z, []).
Proof.
  intros Hf. unfold run, main, mbind, IO_bind.
  unfold loadJson. destruct (historyFile w); simpl;
    try rewrite (fetch_fails_throws w [] Hf); reflexivity.
Qed.

Lemma C7_fetch_failure_is_fatal_witness :
  fetch_fails failing_world ∧ run failing_world = (1%Z, []).
Proof.
  assert (Hf : fetch_fails failing_world).
  { right. exists None. reflexivity. }
  split; [exact Hf|]. exact (C7_fetch_failure_is_fatal failing_world Hf).
Defined.

(** C9. A cycle that ends with exit code 0 has read a history (the file's,
    or the empty one when the file is missing), fetched and processed the
    raw data, and written the processed list to the latest-data file in
    every case; the history file is written after it exactly when
    [historyChanged] is true, and with the updated store. *)
Theorem C9_history_write_gated (w : World) (log : list (Path * Saved)) :
  run w = (0%Z, log) →
  ∃ currentHistory rawData,
    (historyFile w = ReadOk currentHistory
     ∨ historyFile w = ENOENT ∧ currentHistory = ∅)
    ∧ api w = Response true (Some rawData)
    ∧ let latestProcessedTests := processRawData rawData in
      let r := updateHistoricalData (clock w) currentHistory latestProcessedTests in
      log = (LATEST_DATA_PATH, SavedTests latestProcessedTests)
            :: (if historyChanged r
                then [(HISTORY_DATA_PATH, SavedHistory (updatedHistory r))]
                else []).
Proof.
  unfold run. destruct (main w []) as [[u|] log0] eqn:Hmain; [|done].
  intros [= ->]. unfold main in Hmain.
  apply bind_Some in Hmain as (h & log1 & Hload & Hmain).
  apply loadJson_Some in Hload as [-> Hh].
  apply bind_Some in Hmain as (raw & log2 & Hfetch & Hmain).
  apply fetchFishtestData_Some in Hfetch as [-> Hapi].
  apply bind_Some in Hmain as (u1 & log3 & Hsave & Hmain).
  apply saveJson_Some in Hsave as [_ ->].
  exists h, raw. split; [done|]. split; [done|]. cbv zeta in *.
  rewrite app_nil_l in Hmain.
  destruct (historyChanged _).
  - apply saveJson_Some in Hmain as [_ ->]. done.
  - unfold mret, IO_ret in Hmain. by injection Hmain as <-.
Qed.

Lemma C9_history_write_gated_witness :
  run quiet_world
  = (0%Z, [(LATEST_DATA_PATH, SavedTests [sample_test 5 (Some 1.5%float)])])
  ∧ ∃ currentHistory rawData,
      api quiet_world = Response true (Some rawData)
      ∧ historyChanged
          (updateHistoricalData (clock quiet_world) currentHistory
             (processRawData rawData)) = false.
Proof.
  assert (Hrun : run quiet_world
                 = (0%Z, [(LATEST_DATA_PATH,
                           SavedTests [sample_test 5 (Some 1.5%float)])])).
  { vm_compute. reflexivity. }
  split; [exact Hrun|].
  destruct (C9_history_write_gated quiet_world _ Hrun)
    as (h & raw & _ & Hapi & Hlog).
  exists h, raw. split; [exact Hapi|]. cbv zeta in Hlog.
  destruct (historyChanged _); [discriminate Hlog|reflexivity].
Defined.

(** ** The page script *)

(** C8. A click on the branch link of the test that is already tracked
    leaves every variable of the page and the chart as they are; the
    handler only cancels the link's default action and scrolls the chart
    into view. *)
Theorem C8_same_test_selected (p : Page) (event : ClickEvent) :
  isBranchLink event = true →
  currentTrackingTestId p = Some (dataset_testId event) →
  handleBranchClick p event = (p, [PreventDefault; ScrollIntoView]).
Proof.
  intros Hb Hid. unfold handleBranchClick. rewrite Hb.
  by rewrite bool_decide_eq_true_2.
Qed.

Lemma C8_same_test_selected_witness :
  isBranchLink sample_click = true
  ∧ currentTrackingTestId sample_page = Some (dataset_testId sample_click)
  ∧ handleBranchClick sample_page sample_click
    = (sample_page, [PreventDefault; ScrollIntoView]).
Proof.
  split; [reflexivity|]. split; [reflexivity|].
  apply (C8_same_test_selected sample_page sample_click); reflexivity.
Defined.

Lemma llrData_map (testHistory : list Point.t) :
  llrData testHistory
  = map (λ d, {| x := (Point.time d * 1000)%float;
                 y := JS.VNum (default nan (Point.llr d)) |})
      testHistory.
Proof.
  unfold llrData. apply map_ext. intros d. unfold point_prop. simpl.
  by destruct (Point.llr d).
Qed.

(** What [updateChartData] leaves in the chart of a tracked test: both
    series take their times from the points' [time] times 1000; the LLR
    series takes the points' [llr], [NaN] for [null]; the Score series
    reads [score], which no point has. *)
Lemma updateChartData_series (p : Page) (chart : Chart) (testId : string) :
  currentChart p = Some chart →
  currentTrackingTestId p = Some testId →
  testId ≠ "" →
  let testHistory := default [] (historicalData p !! testId) in
  ∃ chart',
    currentChart (updateChartData p).1 = Some chart'
    ∧ data (datasets0 chart')
      = map (λ d, {| x := (Point.time d * 1000)%float; y := JS.VUndefined |})
          testHistory
    ∧ data (datasets1 chart')
      = map (λ d, {| x := (Point.time d * 1000)%float;
                     y := JS.VNum (default nan (Point.llr d)) |})
          testHistory.
Proof.
  intros Hc Hi Hne testHistory. unfold updateChartData. rewrite Hc, Hi.
  apply String.eqb_neq in Hne. rewrite Hne. fold testHistory.
  destruct testHistory as [|d rest] eqn:Hh.
  - eexists. simpl. done.
  - eexists. simpl. split; [done|]. split; [done|].
    apply (llrData_map (d :: rest)).
Qed.

(** C5, evaluated where it fails.  The tracked test has one point, with
    [wml] 5 and [llr] 1.5 at second 1700000000.  The LLR series is built as
    claimed, but the value of the Score series is [undefined]: the script
    reads the property [score], and a history point has [time], [wml] and
    [llr] only. *)
Theorem C5_score_series_reads_missing_field :
  point_prop sample_point "wml" = JS.VNum 5
  ∧ ∃ chart',
      currentChart (updateChartData sample_page).1 = Some chart'
      ∧ data (datasets0 chart')
        = [{| x := 1700000000000; y := JS.VUndefined |}]
      ∧ data (datasets1 chart')
        = [{| x := 1700000000000; y := JS.VNum 1.5 |}].
Proof.
  split; [reflexivity|].
  destruct (updateChartData_series sample_page (newChart llr) "a"
              eq_refl eq_refl) as (chart' & Hc & H0 & H1); [done|].
  exists chart'. split; [exact Hc|]. rewrite H0, H1. split; reflexivity.
Qed.

(** ** The clamp *)

Lemma eqb_leb (x y : float) : (x =? y)%float = true → (x <=? y)%float = true.
Proof.
  rewrite FloatAxioms.eqb_spec, leb_spec. unfold SFeqb, SFleb.
  by destruct (SFcompare _ _) as [[]|].
Qed.

Lemma leb_refl (x : float) : is_nan x = false → (x <=? x)%float = true.
Proof.
  unfold is_nan. rewrite negb_false_iff. apply eqb_leb.
Qed.

Lemma ltb_not_leb (x y : float) :
  (x <? y)%float = true → (y <=? x)%float = false.
Proof.
  rewrite ltb_spec, leb_spec. unfold SFltb, SFleb.
  rewrite (SFcompare_antisym (Prim2SF x) (Prim2SF y)).
  by destruct (SFcompare (Prim2SF x) (Prim2SF y)) as [[]|].
Qed.

Lemma Math_min_spec (hi p : float) :
  is_nan hi = false → is_nan p = false →
  is_nan (JS.Math_min hi p) = false
  ∧ (JS.Math_min hi p <=? hi)%float = true.
Proof.
  intros Hhi Hp. unfold JS.Math_min. rewrite Hhi, Hp. simpl.
  destruct (p <? hi)%float eqn:H1.
  - split; [done|]. by apply ltb_leb.
  - destruct (hi <? p)%float eqn:H2.
    + split; [done|]. by apply leb_refl.
    + destruct (get_sign hi).
      * split; [done|]. by apply leb_refl.
      * split; [done|]. by apply leb_total.
Qed.

Lemma Math_max_spec (lo m : float) :
  is_nan lo = false → is_nan m = false →
  (lo <=? JS.Math_max lo m)%float = true
  ∧ (JS.Math_max lo m = m ∨ JS.Math_max lo m = lo).
Proof.
  intros Hlo Hm. unfold JS.Math_max. rewrite Hlo, Hm. simpl.
  destruct (lo <? m)%float eqn:H1.
  - split; [by apply ltb_leb|by left].
  - destruct (m <? lo)%float eqn:H2.
    + split; [by apply leb_refl|by right].
    + destruct (get_sign lo).
      * split; [by apply leb_total|by left].
      * split; [by apply leb_refl|by right].
Qed.

(** The clamped percentage is [NaN] or lies between -100 and 100. *)
Lemma clamp_percentage_bounds (x : float) :
  is_nan (clamp_percentage x) = true
  ∨ ((-100 <=? clamp_percentage x)%float = true
     ∧ (clamp_percentage x <=? 100)%float = true).
Proof.
  unfold clamp_percentage. set (p := (x / LLR_BOUND * 100)%float).
  destruct (is_nan p) eqn:Hp.
  - left. unfold JS.Math_min. rewrite Hp, orb_true_r. reflexivity.
  - right.
    destruct (Math_min_spec 100 p eq_refl Hp) as [Hn Hle].
    destruct (Math_max_spec (-100) (JS.Math_min 100 p) eq_refl Hn) as [Hge Hc].
    split; [exact Hge|]. destruct Hc as [Hc|Hc]; rewrite Hc; [exact Hle|reflexivity].
Qed.

(** ** Two decimals *)

Lemma length_append (s1 s2 : string) :
  String.length (s1 +:+ s2) = String.length s1 + String.length s2.
Proof. induction s1 as [|c s1 IH]; simpl; [done|]. by rewrite IH. Qed.

Lemma length_zeros (n : nat) : String.length (JS.zeros n) = n.
Proof. induction n as [|n IH]; simpl; [done|]. by rewrite IH. Qed.

Lemma length_substring (s : string) (n m : nat) :
  n + m ≤ String.length s → String.length (String.substring n m s) = m.
Proof.
  revert n m. induction s as [|c s IH]; intros n m Hl; simpl in Hl.
  - assert (n = 0) by lia. assert (m = 0) by lia. by subst.
  - destruct n as [|n]; simpl.
    + destruct m as [|m]; simpl; [done|]. rewrite IH; [done|lia].
    + apply IH. lia.
Qed.

(** [fixed n 2] is an integer part, a point and two digits. *)
Lemma fixed_two_decimals (n : Z) :
  ∃ a b, JS.fixed n 2 = a +:+ "." +:+ b
         ∧ String.length b = 2 ∧ 1 ≤ String.length a.
Proof.
  unfold JS.fixed.
  set (m := JS.digits_of_Z n).
  set (m' := if (String.length m <=? 2)%nat
             then JS.zeros (2 + 1 - String.length m) +:+ m else m).
  assert (Hlen : 3 ≤ String.length m').
  { unfold m'. destruct (Nat.leb_spec (String.length m) 2) as [Hle|Hgt].
    - rewrite length_append, length_zeros. lia.
    - lia. }
  exists (JS.take_str (String.length m' - 2) m'),
         (JS.drop_str (String.length m' - 2) m').
  split; [done|]. unfold JS.take_str, JS.drop_str.
  rewrite !length_substring by lia. lia.
Qed.

(** Below 10^21 in magnitude, [toFixed(2)] is an optional minus sign, an
    integer part, a point and two digits. *)
Lemma Number_toFixed_two_decimals (x : float) :
  (abs x <? 1e21)%float = true →
  ∃ sign a b,
    JS.Number_toFixed x 2 = sign +:+ a +:+ "." +:+ b
    ∧ (sign = "" ∨ sign = "-")
    ∧ String.length b = 2 ∧ 1 ≤ String.length a.
Proof.
  intros Hx. unfold JS.Number_toFixed.
  rewrite (ltb_not_leb _ _ Hx).
  destruct (Prim2SF x) as [s|s| |s m e] eqn:Hsf.
  - destruct (fixed_two_decimals 0) as (a & b & -> & Hb & Ha).
    exists "", a, b. auto.
  - exfalso. rewrite <- (SF2Prim_Prim2SF x), Hsf in Hx. by destruct s.
  - exfalso. rewrite <- (SF2Prim_Prim2SF x), Hsf in Hx. done.
  - destruct (fixed_two_decimals (JS.fixed_units m e 2)) as (a & b & -> & Hb & Ha).
    exists (if s then "-" else ""), a, b. split; [done|].
    split; [by destruct s; auto|done].
Qed.


(** * Further properties of the code *)

(** ** More on the history store manager *)

Lemma differs_time (l : option Point.t) (now now' : float) (t : Test.t) :
  differs l (newPoint now t) = differs l (newPoint now' t).
Proof. by destruct l. Qed.

Lemma visit_flag now h ch t :
  (visit now (h, ch) t).2 = ch || passes_gate h t.
Proof.
  unfold visit, passes_gate.
  destruct (h !! Test.id t) as [s|] eqn:Hs; simpl.
  - rewrite Hs. simpl. rewrite (differs_time _ now 0).
    destruct (differs _ _); simpl; [by rewrite orb_true_r|by rewrite orb_false_r].
  - rewrite lookup_insert_eq. simpl. by rewrite orb_true_r.
Qed.

Lemma passes_gate_ext (h h' : HistoryStore) (t : Test.t) :
  h' !! Test.id t = h !! Test.id t → passes_gate h' t = passes_gate h t.
Proof. unfold passes_gate. by intros ->. Qed.

Lemma forEach_flag clock k tests h ch :
  NoDup (map Test.id tests) →
  (forEach clock k tests (h, ch)).2 = ch || existsb (passes_gate h) tests.
Proof.
  revert k h ch. induction tests as [|t tests IH]; intros k h ch Hnd.
  - simpl. by rewrite orb_false_r.
  - change (forEach clock k (t :: tests) (h, ch))
      with (forEach clock (S k) tests (visit (clock k) (h, ch) t)).
    cbn [existsb map] in *.
    apply NoDup_cons in Hnd as [Hnotin Hnd].
    destruct (visit (clock k) (h, ch) t) as [h' ch'] eqn:Hv.
    rewrite IH by done.
    assert (Hch : ch' = ch || passes_gate h t).
    { rewrite <- (visit_flag (clock k)). by rewrite Hv. }
    rewrite Hch, <- orb_assoc. f_equal. f_equal.
    clear IH Hnd. induction tests as [|u tests IHt]; cbn [existsb map] in *; [done|].
    apply not_elem_of_cons in Hnotin as [Hne Hnotin].
    rewrite IHt by done. f_equal. apply passes_gate_ext.
    assert (Hl : (visit (clock k) (h, ch) t).1 !! Test.id u = h !! Test.id u).
    { by apply (visit_lookup_ne (clock k) (h, ch) t). }
    by rewrite Hv in Hl.
Qed.

Lemma dom_forEach clock k tests acc :
  dom (forEach clock k tests acc).1 = dom acc.1 ∪ activeTestIds tests.
Proof.
  apply set_eq. intros i. unfold activeTestIds.
  rewrite elem_of_union, !elem_of_dom, elem_of_list_to_set.
  destruct (decide (i ∈ map Test.id tests)) as [Hin|Hout].
  - split; [by right|]. intros _. apply forEach_is_Some. by left.
  - rewrite forEach_lookup_notin by done. naive_solver.
Qed.

(** The flag of a call, as a boolean of its inputs. *)
Lemma historyChanged_eq (clock : nat → float) (h : HistoryStore)
  (tests : list Test.t) :
  NoDup (map Test.id tests) →
  historyChanged (updateHistoricalData clock h tests)
  = existsb (passes_gate h) tests
    || negb (bool_decide (dom h ∪ activeTestIds tests ⊆ activeTestIds tests)).
Proof.
  intros Hnd. unfold updateHistoricalData. simpl.
  by rewrite cleanup_changed, dom_forEach, forEach_flag.
Qed.

(** A flag that is set has one of two causes. *)
Lemma historyChanged_true_inv (clock : nat → float) (h : HistoryStore)
  (tests : list Test.t) :
  NoDup (map Test.id tests) →
  historyChanged (updateHistoricalData clock h tests) = true →
  (∃ t, t ∈ tests ∧ passes_gate h t = true)
  ∨ (∃ i, is_Some (h !! i) ∧ i ∉ map Test.id tests).
Proof.
  intros Hnd. rewrite historyChanged_eq by done.
  rewrite orb_true_iff, negb_true_iff, bool_decide_eq_false.
  rewrite existsb_exists. unfold activeTestIds.
  intros [H|H].
  - left. destruct H as (t & Ht & Hg). exists t. split; [|done].
    by apply list_elem_of_In.
  - right.
    assert (Hnf : ¬ map_Forall (λ i _, i ∈ map Test.id tests) h).
    { intros Hf. apply H. intros i Hi.
      apply elem_of_union in Hi as [Hi|Hi]; [|done].
      apply elem_of_dom in Hi as [x Hx]. apply elem_of_list_to_set.
      by apply (Hf i x). }
    apply map_not_Forall in Hnf; [|apply _].
    destruct Hnf as (i & x & Hx & Hni). exists i. split; [by eexists|done].
Qed.

(** X2. For a list of tests without repeated ids, [updateHistoricalData]
    reports a change exactly when some test of the list passes the change
    gate against the store it was given (no sequence yet, an empty one, or
    a last point whose [wml] or [llr] is not strictly equal to the test's),
    or the store holds a key that is the id of no test of the list. *)
Theorem historyChanged_iff (clock : nat → float) (h : HistoryStore)
  (tests : list Test.t) :
  NoDup (map Test.id tests) →
  historyChanged (updateHistoricalData clock h tests) = true
  ↔ (∃ t, t ∈ tests ∧ passes_gate h t = true)
    ∨ (∃ i, is_Some (h !! i) ∧ i ∉ map Test.id tests).
Proof.
  intros Hnd. split; [by apply historyChanged_true_inv|].
  rewrite historyChanged_eq by done.
  rewrite orb_true_iff, negb_true_iff, bool_decide_eq_false.
  rewrite existsb_exists. unfold activeTestIds.
  intros [H|H].
  - left. destruct H as (t & Ht & Hg). exists t. split; [|done].
    by apply list_elem_of_In.
  - right. destruct H as (i & Hi & Hni). intros Hsub.
    apply Hni. apply (elem_of_list_to_set (C := gset string)).
    apply Hsub. apply elem_of_union. left. by apply elem_of_dom.
Qed.

Lemma NoDup_ids_middle (l1 : list Test.t) (t : Test.t) (l2 : list Test.t) :
  NoDup (map Test.id (l1 ++ t :: l2)) → Test.id t ∉ map Test.id (l1 ++ l2).
Proof.
  rewrite !map_app. simpl. intros Hnd.
  apply NoDup_app in Hnd as (_ & Hdis & Hnd).
  apply NoDup_cons in Hnd as [Hnot _].
  intros Hin. apply elem_of_app in Hin as [Hin|Hin]; [|done].
  apply (Hdis _ Hin). apply list_elem_of_here.
Qed.

Lemma step_seq_last_is_Some now t s : is_Some (last (step_seq now t s)).
Proof.
  unfold step_seq. destruct (differs (last s) (newPoint now t)) eqn:Hd.
  - rewrite push_capped_last. by eexists.
  - apply differs_false in Hd as (q & -> & _). by eexists.
Qed.

(** After a call, no test of a list without repeated ids passes the gate
    any more, provided its values equal themselves. *)
Lemma gate_closed_after clock h tests t :
  NoDup (map Test.id tests) → t ∈ tests → self_equal t →
  passes_gate (updatedHistory (updateHistoricalData clock h tests)) t = false.
Proof.
  intros Hnd Ht [Hw Hl].
  apply list_elem_of_split in Ht as (l1 & l2 & ->).
  pose proof (NoDup_ids_middle _ _ _ Hnd) as Hi.
  unfold passes_gate. rewrite updateHistoricalData_lookup.
  rewrite decide_True by apply elem_of_ids_middle.
  rewrite forEach_lookup_once by done. simpl.
  apply differs_false.
  destruct (step_seq_last_is_Some (clock (length l1)) t (default [] (h !! Test.id t)))
    as [q Hq].
  exists q. split; [done|].
  by apply (step_seq_last_same _ _ _ _ Hq).
Qed.

(** X3. Running [updateHistoricalData] a second time on its own result
    with the same tests, whatever the clock reads, reports no change and
    returns the store as it was: the tests have no repeated ids, and no
    [wml] or [llr] among them is [NaN]. *)
Theorem second_cycle_is_quiet (clock clock' : nat → float) (h : HistoryStore)
  (tests : list Test.t) :
  NoDup (map Test.id tests) →
  Forall self_equal tests →
  let r := updateHistoricalData clock h tests in
  let r' := updateHistoricalData clock' (updatedHistory r) tests in
  historyChanged r' = false ∧ updatedHistory r' = updatedHistory r.
Proof.
  intros Hnd Hse r r'.
  assert (Hf : historyChanged r' = false).
  { apply not_true_is_false. intros Hc.
    apply historyChanged_true_inv in Hc as [(t & Ht & Hg)|(i & Hi & Hni)];
      [| |done].
    - rewrite Forall_forall in Hse.
      unfold r in Hg. rewrite gate_closed_after in Hg; auto. done.
    - unfold r in Hi. rewrite updateHistoricalData_lookup in Hi.
      rewrite decide_False in Hi by done. by destruct Hi. }
  split; [done|]. by apply historyChanged_false_unchanged.
Qed.

Lemma historyChanged_iff_witness :
  NoDup (map Test.id [sample_test 6 (Some 1.5%float)])
  ∧ historyChanged
      (updateHistoricalData sample_clock one_point_store
         [sample_test 6 (Some 1.5%float)]) = true.
Proof.
  assert (Hnd : NoDup (map Test.id [sample_test 6 (Some 1.5%float)])).
  { apply NoDup_singleton. }
  split; [exact Hnd|].
  apply (historyChanged_iff sample_clock one_point_store
           [sample_test 6 (Some 1.5%float)] Hnd).
  left. exists (sample_test 6 (Some 1.5%float)).
  split; [apply list_elem_of_here|vm_compute; reflexivity].
Defined.

Lemma second_cycle_is_quiet_witness :
  NoDup (map Test.id [sample_test 6 (Some 1.5%float)])
  ∧ Forall self_equal [sample_test 6 (Some 1.5%float)]
  ∧ historyChanged
      (updateHistoricalData sample_clock
         (updatedHistory
            (updateHistoricalData sample_clock one_point_store
               [sample_test 6 (Some 1.5%float)]))
         [sample_test 6 (Some 1.5%float)]) = false.
Proof.
  assert (Hnd : NoDup (map Test.id [sample_test 6 (Some 1.5%float)])).
  { apply NoDup_singleton. }
  assert (Hse : Forall self_equal [sample_test 6 (Some 1.5%float)]).
  { apply Forall_singleton. split; vm_compute; reflexivity. }
  split; [exact Hnd|]. split; [exact Hse|].
  exact (proj1 (second_cycle_is_quiet sample_clock sample_clock one_point_store
                  [sample_test 6 (Some 1.5%float)] Hnd Hse)).
Defined.

(** ** More on the snapshot processor *)

Lemma processRawData_ids (rawData : list (string * Raw.t)) :
  map Test.id (processRawData rawData)
  ≡ₚ map (λ entry, Raw._id entry.2) rawData.
Proof.
  unfold processRawData. rewrite Array_sort_perm.
  by rewrite <- list_fmap_compose.
Qed.

(** X4. [processRawData] returns the processed records of the API answer,
    each once and none else, in some order: as many entries as the answer
    has records, with the records' ids. *)
Theorem processRawData_permutation (rawData : list (string * Raw.t)) :
  processRawData rawData ≡ₚ map (λ entry, processTest entry.2) rawData
  ∧ length (processRawData rawData) = length rawData
  ∧ map Test.id (processRawData rawData)
    ≡ₚ map (λ entry, Raw._id entry.2) rawData.
Proof.
  assert (Hp : processRawData rawData ≡ₚ map (λ entry, processTest entry.2) rawData).
  { apply Array_sort_perm. }
  split; [exact Hp|]. split.
  - rewrite Hp. apply length_map.
  - apply processRawData_ids.
Qed.

Lemma Array_sort_in_place {A : Type} (comparefn : A → A → float) (l : list A) :
  StronglySorted (λ a b, (0 <? comparefn a b)%float = false) l →
  Array_sort comparefn l = l.
Proof.
  induction 1 as [|x l Hs IH Hx]; [done|].
  unfold Array_sort in *. simpl. rewrite IH.
  destruct l as [|y l]; [done|]. simpl.
  apply Forall_cons in Hx as [Hxy _]. by rewrite Hxy.
Qed.

(** X6. Processed records that the comparison function already has in
    place (none is to come after a later one) are returned in the order of
    the API answer; so are records that tie, as those without an llr. *)
Theorem processRawData_in_place (rawData : list (string * Raw.t)) :
  in_place (map (λ entry, processTest entry.2) rawData) →
  processRawData rawData = map (λ entry, processTest entry.2) rawData.
Proof. apply Array_sort_in_place. Qed.

Lemma in_place_no_llr (l : list Test.t) :
  Forall (λ t, Test.llr t = None) l → in_place l.
Proof.
  induction 1 as [|t l Ht Hl IH]; constructor; [done|].
  apply Forall_forall. intros u Hu. rewrite Forall_forall in Hl.
  unfold compareTests. rewrite Ht, (Hl u Hu). reflexivity.
Qed.

Lemma or_zero_not_nan (x : float) : is_nan (JS.or_zero x) = false.
Proof.
  unfold JS.or_zero. destruct (is_nan x) eqn:Hn; simpl; [reflexivity|].
  by destruct (is_zero x).
Qed.

(** X7. Whatever the API record holds, the counts [wins], [losses],
    [draws] and [workers] of the processed record are never [NaN], and its
    [sprtElo0] is [null] or a Number that is not [NaN]. *)
Theorem processTest_counts_are_numbers (test : Raw.t) :
  is_nan (Test.wins (processTest test)) = false
  ∧ is_nan (Test.losses (processTest test)) = false
  ∧ is_nan (Test.draws (processTest test)) = false
  ∧ is_nan (Test.workers (processTest test)) = false
  ∧ ∀ v, Test.sprtElo0 (processTest test) = Some v → is_nan v = false.
Proof.
  unfold processTest. cbn [Test.wins Test.losses Test.draws Test.workers Test.sprtElo0].
  repeat (split; [apply or_zero_not_nan|]).
  intros v. destruct (JS.truthy _); [|done].
  destruct (JS.get_opt _ "elo0") eqn:He; try done;
    destruct (is_nan (JS.parseFloat _)) eqn:Hn; try done;
    intros [= <-]; exact Hn.
Qed.

Lemma get_opt_not_object (v : JS.Val) (k : string) :
  (∀ props, v ≠ JS.VObj props) → JS.get_opt v k = JS.VUndefined.
Proof. intros Hv. destruct v; try done. by destruct (Hv props). Qed.

(** X8. The defaults of a processed record: with an [args] that is
    missing or falsy the user name and the branch are ["N/A"] and both
    [llr] and [sprtElo0] are [null]; with a [results] that is no object the
    three counts, [wml] and [totalGames] are 0; with an [args] that is no
    object [llr] and [sprtElo0] are [null]. *)
Theorem processTest_defaults (test : Raw.t) :
  (JS.truthy (Raw.args test) = false →
   Test.username (processTest test) = JS.VStr "N/A"
   ∧ Test.branch (processTest test) = JS.VStr "N/A"
   ∧ Test.llr (processTest test) = None
   ∧ Test.sprtElo0 (processTest test) = None)
  ∧ ((∀ props, Raw.results test ≠ JS.VObj props) →
     Test.wins (processTest test) = 0%float
     ∧ Test.losses (processTest test) = 0%float
     ∧ Test.draws (processTest test) = 0%float
     ∧ Test.wml (processTest test) = 0%float
     ∧ Test.totalGames (processTest test) = 0%float)
  ∧ ((∀ props, Raw.args test ≠ JS.VObj props) →
     Test.llr (processTest test) = None
     ∧ Test.sprtElo0 (processTest test) = None).
Proof.
  split; [|split].
  - intros Ha. unfold processTest, JS.or_else. rewrite Ha.
    cbn [Test.username Test.branch Test.llr Test.sprtElo0]. done.
  - intros Hr. unfold processTest.
    cbn [Test.wins Test.losses Test.draws Test.wml Test.totalGames].
    rewrite !get_opt_not_object by done. done.
  - intros Ha. unfold processTest, JS.or_else.
    cbn [Test.llr Test.sprtElo0].
    destruct (JS.truthy (Raw.args test)); [|done].
    rewrite (get_opt_not_object (Raw.args test)) by done. done.
Qed.

Lemma processRawData_sorted_when_numeric_witness :
  Forall (λ entry, numeric_llr (processTest entry.2)) rawData_two
  ∧ sorted_by_llr (processRawData rawData_two).
Proof.
  assert (Hn : Forall (λ entry, numeric_llr (processTest entry.2)) rawData_two).
  { repeat constructor. }
  split; [exact Hn|]. exact (processRawData_sorted_when_numeric rawData_two Hn).
Defined.

Lemma processRawData_in_place_witness :
  in_place (map (λ entry, processTest entry.2) rawData_two)
  ∧ map Test.id (processRawData rawData_two) = ["a"; "b"].
Proof.
  assert (Hp : in_place (map (λ entry, processTest entry.2) rawData_two)).
  { repeat constructor. }
  split; [exact Hp|].
  rewrite (processRawData_in_place rawData_two Hp). reflexivity.
Defined.

(** ** More on [main] *)

(** [main] unfolded on a history that loads and an answer that parses. *)
Lemma run_loaded (w : World) (h : HistoryStore) (raw : list (string * Raw.t)) :
  historyFile w = ReadOk h ∨ historyFile w = ENOENT ∧ h = ∅ →
  api w = Response true (Some raw) →
  let tests := processRawData raw in
  let r := updateHistoricalData (clock w) h tests in
  run w =
    if writable w LATEST_DATA_PATH then
      if historyChanged r then
        if writable w HISTORY_DATA_PATH
        then (0%Z, [(LATEST_DATA_PATH, SavedTests tests);
                    (HISTORY_DATA_PATH, SavedHistory (updatedHistory r))])
        else (1%Z, [(LATEST_DATA_PATH, SavedTests tests)])
      else (0%Z, [(LATEST_DATA_PATH, SavedTests tests)])
    else (1%Z, []).
Proof.
  intros Hh Hapi tests r.
  assert (Hload : loadJson w ∅ [] = (Some h, [])).
  { unfold loadJson. destruct Hh as [->|[-> ->]]; reflexivity. }
  assert (Hfetch : fetchFishtestData w [] = (Some raw, [])).
  { unfold fetchFishtestData. rewrite Hapi. reflexivity. }
  unfold run, main, mbind, IO_bind. rewrite Hload, Hfetch.
  fold tests. fold r. unfold saveJson.
  destruct (writable w LATEST_DATA_PATH); [|reflexivity].
  destruct (historyChanged r); [|reflexivity].
  destruct (writable w HISTORY_DATA_PATH); reflexivity.
Qed.

(** Every other run stops before the first write. *)
Lemma run_not_loaded (w : World) :
  historyFile w = ReadError
  ∨ (∀ raw, api w ≠ Response true (Some raw)) →
  run w = (1%Z, []).
Proof.
  intros Hw. unfold run, main, mbind, IO_bind, loadJson, fetchFishtestData.
  destruct (historyFile w) eqn:Hf.
  - destruct Hw as [?|Hw]; [done|].
    destruct (api w) as [|[] [raw|]]; try reflexivity. by destruct (Hw raw).
  - destruct Hw as [?|Hw]; [done|].
    destruct (api w) as [|[] [raw|]]; try reflexivity. by destruct (Hw raw).
  - reflexivity.
Qed.

(** X1. A run that ends with exit code 0 and writes the latest-data file
    alone has lost nothing by skipping the history: the store that
    [updateHistoricalData] returned is the one the history file holds. *)
Theorem skipped_history_save_loses_nothing (w : World) (h : HistoryStore)
  (tests : list Test.t) :
  historyFile w = ReadOk h →
  run w = (0%Z, [(LATEST_DATA_PATH, SavedTests tests)]) →
  ∃ raw, api w = Response true (Some raw)
         ∧ tests = processRawData raw
         ∧ updatedHistory (updateHistoricalData (clock w) h tests) = h.
Proof.
  intros Hf Hrun.
  destruct (api w) as [|[] [raw|]] eqn:Hapi;
    try (rewrite run_not_loaded in Hrun;
         [done|right; intros raw'; rewrite Hapi; done]).
  exists raw. split; [done|].
  rewrite (run_loaded w h raw) in Hrun by auto.
  destruct (writable w LATEST_DATA_PATH); [|done].
  destruct (historyChanged _) eqn:Hc.
  - by destruct (writable w HISTORY_DATA_PATH).
  - injection Hrun as <-. split; [done|].
    by apply historyChanged_false_unchanged.
Qed.

Lemma skipped_history_save_loses_nothing_witness :
  historyFile quiet_world = ReadOk one_point_store
  ∧ updatedHistory
      (updateHistoricalData (clock quiet_world) one_point_store
         [sample_test 5 (Some 1.5%float)]) = one_point_store.
Proof.
  assert (Hf : historyFile quiet_world = ReadOk one_point_store)
    by reflexivity.
  assert (Hrun : run quiet_world
                 = (0%Z, [(LATEST_DATA_PATH,
                           SavedTests [sample_test 5 (Some 1.5%float)])])).
  { vm_compute. reflexivity. }
  split; [exact Hf|].
  destruct (skipped_history_save_loses_nothing quiet_world one_point_store
              [sample_test 5 (Some 1.5%float)] Hf Hrun) as (raw & _ & _ & Hu).
  exact Hu.
Defined.

(** X9. A missing history file is an empty history: the run is the one
    that a file holding the empty object would give. *)
Theorem missing_history_is_empty_history (answer : FetchOutcome)
  (canWrite : Path → bool) (readings : nat → float) :
  run {| historyFile := ENOENT; api := answer;
         writable := canWrite; clock := readings |}
  = run {| historyFile := ReadOk ∅; api := answer;
           writable := canWrite; clock := readings |}.
Proof.
  destruct answer as [|[] [raw|]]; try reflexivity.
Qed.

(** X10. A history file that cannot be read or parsed (any error but
    ENOENT) ends the run with exit code 1 before anything is written. *)
Theorem unreadable_history_is_fatal (w : World) :
  historyFile w = ReadError → run w = (1%Z, []).
Proof. intros Hf. apply run_not_loaded. by left. Qed.

Lemma unreadable_history_is_fatal_witness :
  historyFile corrupt_world = ReadError ∧ run corrupt_world = (1%Z, []).
Proof.
  split; [reflexivity|].
  apply (unreadable_history_is_fatal corrupt_world). reflexivity.
Defined.


(** X12. What a run writes is nothing, or the latest-data file alone, or
    the latest-data file and then the history file; the history file is
    never written first or alone, and a run that writes it ends with exit
    code 0. *)
Theorem history_never_written_alone (w : World) :
  (run w).2 = []
  ∨ (∃ tests, (run w).2 = [(LATEST_DATA_PATH, SavedTests tests)])
  ∨ (∃ tests h,
       run w = (0%Z, [(LATEST_DATA_PATH, SavedTests tests);
                      (HISTORY_DATA_PATH, SavedHistory h)])).
Proof.
  destruct (historyFile w) as [h0| |] eqn:Hf.
  - destruct (api w) as [|[] [raw|]] eqn:Hapi;
      try (left; rewrite run_not_loaded;
           [done|right; intros raw'; rewrite Hapi; done]).
    rewrite (run_loaded w h0 raw) by auto.
    destruct (writable w LATEST_DATA_PATH); [|by left].
    destruct (historyChanged _); [|right; left; by eexists].
    destruct (writable w HISTORY_DATA_PATH);
      [right; right; by do 2 eexists|right; left; by eexists].
  - destruct (api w) as [|[] [raw|]] eqn:Hapi;
      try (left; rewrite run_not_loaded;
           [done|right; intros raw'; rewrite Hapi; done]).
    rewrite (run_loaded w ∅ raw) by auto.
    destruct (writable w LATEST_DATA_PATH); [|by left].
    destruct (historyChanged _); [|right; left; by eexists].
    destruct (writable w HISTORY_DATA_PATH);
      [right; right; by do 2 eexists|right; left; by eexists].
  - left. rewrite run_not_loaded; [done|by left].
Qed.

(** X13. When the history changed and the history file cannot be
    written, the run ends with exit code 1 after it has written the new
    snapshot: the latest-data file is ahead of the history file. *)
Theorem failed_history_write_keeps_snapshot (w : World) (h : HistoryStore)
  (raw : list (string * Raw.t)) :
  historyFile w = ReadOk h ∨ historyFile w = ENOENT ∧ h = ∅ →
  api w = Response true (Some raw) →
  writable w LATEST_DATA_PATH = true →
  writable w HISTORY_DATA_PATH = false →
  historyChanged (updateHistoricalData (clock w) h (processRawData raw)) = true →
  run w = (1%Z, [(LATEST_DATA_PATH, SavedTests (processRawData raw))]).
Proof.
  intros Hh Hapi Hl Hw Hc. rewrite (run_loaded w h raw Hh Hapi).
  by rewrite Hl, Hc, Hw.
Qed.

Lemma failed_history_write_keeps_snapshot_witness :
  run readonly_history_world
  = (1%Z, [(LATEST_DATA_PATH, SavedTests (processRawData rawData_two))]).
Proof.
  apply (failed_history_write_keeps_snapshot readonly_history_world
           one_point_store rawData_two).
  - left. reflexivity.
  - reflexivity.
  - reflexivity.
  - reflexivity.
  - vm_compute. reflexivity.
Defined.

Lemma dom_updatedHistory clock h tests :
  dom (updatedHistory (updateHistoricalData clock h tests))
  = activeTestIds tests.
Proof.
  apply set_eq. intros i. rewrite elem_of_dom. unfold activeTestIds.
  rewrite elem_of_list_to_set, updateHistoricalData_lookup.
  destruct (decide (i ∈ map Test.id tests)) as [Hin|Hni].
  - split; [done|]. intros _. apply forEach_is_Some. by left.
  - split; [|done]. by intros [? ?].
Qed.

Lemma activeTestIds_processRawData (raw : list (string * Raw.t)) :
  activeTestIds (processRawData raw) = raw_ids raw.
Proof.
  unfold activeTestIds, raw_ids. apply set_eq. intros i.
  rewrite !elem_of_list_to_set.
  by rewrite processRawData_ids.
Qed.

(** X14. A history that a run writes has exactly the ids of the records
    of the API answer as its keys. *)
Theorem written_history_keys (w : World) (h' : HistoryStore) :
  (HISTORY_DATA_PATH, SavedHistory h') ∈ (run w).2 →
  ∃ raw, api w = Response true (Some raw) ∧ dom h' = raw_ids raw.
Proof.
  intros Hin.
  assert (Hgen : ∀ h raw,
    (historyFile w = ReadOk h ∨ historyFile w = ENOENT ∧ h = ∅) →
    api w = Response true (Some raw) →
    ∃ raw, api w = Response true (Some raw) ∧ dom h' = raw_ids raw).
  { intros h raw Hh Hapi. exists raw. split; [done|].
    rewrite (run_loaded w h raw Hh Hapi) in Hin.
    destruct (writable w LATEST_DATA_PATH); [|by apply elem_of_nil in Hin].
    destruct (historyChanged _).
    - destruct (writable w HISTORY_DATA_PATH).
      + apply elem_of_cons in Hin as [Hin|Hin]; [done|].
        apply list_elem_of_singleton in Hin. injection Hin as Heq.
        rewrite Heq.
        change (dom (updatedHistory
                       (updateHistoricalData (clock w) h (processRawData raw)))
                = raw_ids raw).
        by rewrite dom_updatedHistory, activeTestIds_processRawData.
      + by apply list_elem_of_singleton in Hin.
    - by apply list_elem_of_singleton in Hin. }
  destruct (historyFile w) as [h0| |] eqn:Hf.
  - destruct (api w) as [|[] [raw|]] eqn:Hapi;
      try (rewrite run_not_loaded in Hin;
           [by apply elem_of_nil in Hin|right; intros raw'; rewrite Hapi; done]).
    apply (Hgen h0 raw); auto.
  - destruct (api w) as [|[] [raw|]] eqn:Hapi;
      try (rewrite run_not_loaded in Hin;
           [by apply elem_of_nil in Hin|right; intros raw'; rewrite Hapi; done]).
    apply (Hgen ∅ raw); auto.
  - rewrite run_not_loaded in Hin; [by apply elem_of_nil in Hin|by left].
Qed.

Lemma written_history_keys_witness :
  ∃ h', (HISTORY_DATA_PATH, SavedHistory h') ∈ (run first_run_world).2
        ∧ dom h' = ({["a"; "b"]} : gset string).
Proof.
  pose (h' := updatedHistory
                (updateHistoricalData sample_clock ∅ (processRawData rawData_two))).
  assert (Hin : (HISTORY_DATA_PATH, SavedHistory h') ∈ (run first_run_world).2).
  { apply list_elem_of_further, list_elem_of_here. }
  exists h'. split; [exact Hin|].
  destruct (written_history_keys first_run_world h' Hin) as (raw & Hapi & Hd).
  injection Hapi as <-. rewrite Hd. vm_compute. reflexivity.
Defined.

(** ** The status line *)

Lemma SFltb_trans (x y z : spec_float) :
  SFltb x y = true → SFltb y z = true → SFltb x z = true.
Proof.
  unfold SFltb, SFcompare.
  destruct x as [sx|sx| |sx mx ex], y as [sy|sy| |sy my ey],
           z as [sz|sz| |sz mz ez]; try done;
    try (by destruct sx); try (by destruct sy); try (by destruct sz);
    try (by destruct sx, sy); try (by destruct sx, sz);
    try (by destruct sy, sz); try (by destruct sx, sy, sz).
  change (PosDef.Pos.compare_cont Eq) with Pos.compare.
  destruct sx, sy, sz; try done;
    destruct (Z.compare_spec ex ey), (Z.compare_spec ey ez),
             (Z.compare_spec ex ez); try done; try lia; subst;
    destruct (Pos.compare_spec mx my), (Pos.compare_spec my mz),
             (Pos.compare_spec mx mz); simpl; try done; try lia.
Qed.

Lemma ltb_trans (x y z : float) :
  (x <? y)%float = true → (y <? z)%float = true → (x <? z)%float = true.
Proof. rewrite !ltb_spec. apply SFltb_trans. Qed.

Lemma ltb_irrefl (x : float) : (x <? x)%float = false.
Proof.
  destruct (x <? x)%float eqn:H; [|done].
  pose proof (ltb_not_leb _ _ H) as Hn. by rewrite (ltb_leb _ _ H) in Hn.
Qed.

Lemma newest_point_insert (m : HistoryStore) (i : string) (x : list Point.t)
  (l : Point.t) :
  m !! i = None →
  newest_point (<[i := x]> m) l ↔ last x = Some l ∨ newest_point m l.
Proof.
  intros Hi. unfold newest_point. split.
  - intros (k & s & Hk & Hl). destruct (decide (k = i)) as [->|Hne].
    + rewrite lookup_insert_eq in Hk. injection Hk as <-. by left.
    + rewrite lookup_insert_ne in Hk by done. right. by exists k, s.
  - intros [Hl|(k & s & Hk & Hl)].
    + exists i, x. by rewrite lookup_insert_eq.
    + exists k, s. split; [|done]. rewrite lookup_insert_ne; [done|].
      intros <-. by rewrite Hi in Hk.
Qed.

(** The invariant of the loop of [getLatestUpdateTime]. *)
Lemma latestTime_invariant (history : HistoryStore) :
  let r :=
    map_fold
      (λ _ (testEntries : list Point.t) (latestTime : float),
         match last testEntries with
         | Some lastEntry =>
             if (latestTime <? Point.time lastEntry)%float
             then Point.time lastEntry else latestTime
         | None => latestTime
         end)
      0%float history in
  (r = 0%float
   ∨ (0 <? r)%float = true ∧ ∃ l, newest_point history l ∧ Point.time l = r)
  ∧ ∀ l, newest_point history l → (r <? Point.time l)%float = false.
Proof.
  cbv zeta.
  pose (P := λ (r : float) (m : HistoryStore),
    (r = 0%float
     ∨ (0 <? r)%float = true ∧ ∃ l, newest_point m l ∧ Point.time l = r)
    ∧ ∀ l, newest_point m l → (r <? Point.time l)%float = false).
  apply (map_fold_weak_ind P); unfold P.
  - split; [by left|]. intros l (k & s & Hk & _). by rewrite lookup_empty in Hk.
  - intros i x m r Hi [Hr Hmax].
    assert (Hkeep : r = 0%float
                    ∨ (0 <? r)%float = true
                      ∧ ∃ l, newest_point (<[i:=x]> m) l ∧ Point.time l = r).
    { destruct Hr as [->|(H0 & l & Hl & Ht)]; [by left|right].
      split; [done|]. exists l. split; [|done].
      apply newest_point_insert; auto. }
    destruct (last x) as [le|] eqn:Hle.
    + destruct (r <? Point.time le)%float eqn:Hlt.
      * split.
        -- right. split.
           ++ destruct Hr as [->|[H0 _]]; [done|]. by apply (ltb_trans _ r).
           ++ exists le. split; [|done]. apply newest_point_insert; auto.
        -- intros l Hl. apply newest_point_insert in Hl as [Hl|Hl]; [| |done].
           ++ rewrite Hle in Hl. injection Hl as <-. apply ltb_irrefl.
           ++ apply not_true_is_false. intros Hc.
              pose proof (ltb_trans _ _ _ Hlt Hc) as Hrl.
              by rewrite (Hmax l Hl) in Hrl.
      * split; [done|].
        intros l Hl. apply newest_point_insert in Hl as [Hl|Hl]; [| |done].
        -- rewrite Hle in Hl. by injection Hl as <-.
        -- by apply Hmax.
    + split; [done|].
      intros l Hl. apply newest_point_insert in Hl as [Hl|Hl]; [| |done].
      * by rewrite Hle in Hl.
      * by apply Hmax.
Qed.

(** X17. A timestamp that [getLatestUpdateTime] returns is greater than
    0, is the time of the newest point of some test, and no test's newest
    point has a later time; it returns [null] only if no test's newest
    point has a time greater than 0. *)
Theorem getLatestUpdateTime_is_latest (history : HistoryStore) :
  match getLatestUpdateTime history with
  | Some t =>
      (0 <? t)%float = true
      ∧ (∃ l, newest_point history l ∧ Point.time l = t)
      ∧ (∀ l, newest_point history l → (t <? Point.time l)%float = false)
  | None =>
      ∀ l, newest_point history l → (0 <? Point.time l)%float = false
  end.
Proof.
  unfold getLatestUpdateTime.
  destruct (latestTime_invariant history) as [Hr Hmax].
  destruct (0 <? _)%float eqn:H0.
  - split; [done|]. split; [|done].
    destruct Hr as [Hr|[_ Hr]]; [|done]. by rewrite Hr in H0.
  - destruct Hr as [Hr|[Hr _]]; [|by rewrite Hr in H0].
    intros l Hl. specialize (Hmax l Hl). by rewrite Hr in Hmax.
Qed.

(** ** The chart controller *)

(** X15. Of two calls of [toggleChartMetric] in a row the second one
    decides: the page is the one the second call alone gives.  After a
    call exactly one of the two series is hidden, the llr series is the
    visible one exactly for [llr], and the y axis is bounded to [-3, 3]
    for [llr] and starts at zero without bounds for [score]. *)
Theorem last_toggle_wins (p : Page) (a b : Metric) :
  (toggleChartMetric (toggleChartMetric p a).1 b).1 = (toggleChartMetric p b).1
  ∧ ∀ chart',
      currentChart (toggleChartMetric p b).1 = Some chart' →
      hidden (datasets0 chart') = negb (hidden (datasets1 chart'))
      ∧ (hidden (datasets1 chart') = false ↔ b = llr)
      ∧ (b = llr → scales_y chart' = {| min := Some (-3)%float;
                                       max := Some 3%float;
                                       beginAtZero := false |})
      ∧ (b = score → scales_y chart' = {| min := None; max := None;
                                         beginAtZero := true |}).
Proof.
  split.
  - unfold toggleChartMetric. destruct (currentChart p) as [chart|] eqn:Hc.
    + simpl. done.
    + simpl. by rewrite Hc.
  - intros chart' Hc'. unfold toggleChartMetric in Hc'.
    destruct (currentChart p) as [chart|] eqn:Hc; simpl in Hc';
      [|by rewrite Hc in Hc'].
    injection Hc' as <-. simpl.
    destruct b; simpl; repeat split; try done.
Qed.

Lemma toggleChartMetric_data (p : Page) (chart : Chart) (m : Metric) :
  currentChart p = Some chart →
  ∃ chart', currentChart (toggleChartMetric p m).1 = Some chart'
            ∧ data (datasets0 chart') = data (datasets0 chart)
            ∧ data (datasets1 chart') = data (datasets1 chart)
            ∧ labels chart' = labels chart.
Proof.
  intros Hc. unfold toggleChartMetric. rewrite Hc. eexists. simpl. done.
Qed.

(** X16. A click on the branch link of a test other than the tracked one
    (with an id that is not empty) tracks that test and its branch, makes
    llr the visible metric, shows the chart container, shows the
    test-ended message exactly when the test is not in the loaded list,
    leaves the loaded data alone, destroys the old chart exactly when
    there was one, and leaves a new chart with the score series hidden,
    the llr series visible, the y axis on [-3, 3] and both series read
    from the test's history. *)
Theorem other_test_selected (p : Page) (event : ClickEvent) :
  isBranchLink event = true →
  currentTrackingTestId p ≠ Some (dataset_testId event) →
  dataset_testId event ≠ "" →
  let testId := dataset_testId event in
  let testHistory := default [] (historicalData p !! testId) in
  let p' := (handleBranchClick p event).1 in
  currentTrackingTestId p' = Some testId
  ∧ currentTrackingBranchName p' = Some (dataset_branchName event)
  ∧ currentVisibleMetric p' = llr
  ∧ chartContainer_shown p' = true
  ∧ testEndedMessage_shown p' = negb (isActive p testId)
  ∧ allTestsData p' = allTestsData p
  ∧ historicalData p' = historicalData p
  ∧ (ChartDestroy ∈ (handleBranchClick p event).2 ↔ is_Some (currentChart p))
  ∧ ∃ chart',
      currentChart p' = Some chart'
      ∧ hidden (datasets0 chart') = true
      ∧ hidden (datasets1 chart') = false
      ∧ scales_y chart' = {| min := Some (-3)%float; max := Some 3%float;
                             beginAtZero := false |}
      ∧ data (datasets0 chart') = scoreData testHistory
      ∧ data (datasets1 chart') = llrData testHistory.
Proof.
  intros Hb Hne Hid testId testHistory p'.
  unfold p', handleBranchClick. rewrite Hb.
  rewrite bool_decide_eq_false_2 by (intros Heq; by rewrite Heq in Hne).
  fold testId. unfold initializeChart, toggleChartMetric. simpl.
  unfold updateChartData. simpl.
  apply String.eqb_neq in Hid. fold testId in Hid. rewrite Hid.
  fold testHistory.
  assert (Hmem : ∀ e1 e2 e3 : list Effect,
            e1 = [ChartUpdate None;
                  ConsoleLog ("No historical data found for " +:+ testId +:+
                              " to update chart.");
                  ChartUpdate (Some "none")]
            ∨ e1 = [ChartUpdate None; ChartUpdate (Some "none")] →
            ChartDestroy
              ∈ PreventDefault
                :: (match currentChart p with
                    | Some _ => [ChartDestroy]
                    | None => []
                    end ++ e1) ++ [ScrollIntoView]
            ↔ is_Some (currentChart p)).
  { intros e1 _ _ He1. destruct (currentChart p) as [c|]; simpl.
    - split; [by eexists|]. intros _.
      apply list_elem_of_further, list_elem_of_here.
    - split; [|by intros [? ?]]. intros Hin.
      destruct He1 as [->| ->]; simpl in Hin;
        repeat (apply elem_of_cons in Hin as [Hin|Hin]; [done|]);
        by apply elem_of_nil in Hin. }
  destruct testHistory as [|d rest]; simpl.
  - split; [done|]. split; [done|]. split; [done|]. split; [done|].
    split; [done|]. split; [done|]. split; [done|].
    split; [apply (Hmem _ [] []); by left|].
    eexists. simpl. repeat split; done.
  - split; [done|]. split; [done|]. split; [done|]. split; [done|].
    split; [done|]. split; [done|]. split; [done|].
    split; [apply (Hmem _ [] []); by right|].
    eexists. simpl. repeat split; done.
Qed.

Lemma other_test_selected_witness :
  isBranchLink other_click = true
  ∧ currentTrackingTestId sample_page ≠ Some (dataset_testId other_click)
  ∧ dataset_testId other_click ≠ ""
  ∧ currentTrackingTestId (handleBranchClick sample_page other_click).1
    = Some "b"
  ∧ testEndedMessage_shown (handleBranchClick sample_page other_click).1
    = true.
Proof.
  assert (H1 : isBranchLink other_click = true) by reflexivity.
  assert (H2 : currentTrackingTestId sample_page
               ≠ Some (dataset_testId other_click)) by discriminate.
  assert (H3 : dataset_testId other_click ≠ "") by discriminate.
  split; [exact H1|]. split; [exact H2|]. split; [exact H3|].
  destruct (other_test_selected sample_page other_click H1 H2 H3)
    as (Ht & _ & _ & _ & He & _).
  split; [exact Ht|]. rewrite He. reflexivity.
Defined.


(** ** Loading the two files *)

Lemma getLatestUpdateTime_empty : getLatestUpdateTime ∅ = None.
Proof. unfold getLatestUpdateTime. by rewrite map_fold_empty. Qed.

(** X19. [loadDataFromFiles] ends without the error row exactly when
    the latest-data response is ok with a body that parses and the history
    response is either ok with a body that parses or not ok with status
    404; in every other case the test list and the history are emptied and
    the status line reads ["Last update: Error loading"]. *)
Theorem loadDataFromFiles_error_iff (nowMs : float)
  (latestResponse : FileResponse (list Test.t))
  (historyResponse : FileResponse HistoryStore) (p : Page) :
  let p' := (loadDataFromFiles nowMs latestResponse historyResponse p).1 in
  let report := (loadDataFromFiles nowMs latestResponse historyResponse p).2 in
  (errorRow_shown report = false
   ↔ ∃ (status : Z) (tests : list Test.t),
       latestResponse = Responded true status (Some tests)
       ∧ ((∃ (historyStatus : Z) (history : HistoryStore),
             historyResponse = Responded true historyStatus (Some history))
          ∨ (∃ body : option HistoryStore,
               historyResponse = Responded false 404 body)))
  ∧ (errorRow_shown report = true →
     allTestsData p' = [] ∧ historicalData p' = ∅
     ∧ lastUpdateTime_textContent report = "Last update: Error loading").
Proof.
  cbv zeta. unfold loadDataFromFiles.
  destruct (loaded_data latestResponse historyResponse) as [[tests history]|] eqn:Hl.
  - split; [|done]. split; [intros _|done].
    unfold loaded_data in Hl.
    destruct latestResponse as [|[] status [tests'|]]; try done;
      destruct historyResponse as [|[] historyStatus [history'|]]; try done;
      simpl in Hl.
    + injection Hl as -> ->. exists status, tests. split; [done|]. left. eauto.
    + destruct (Z.eqb_spec historyStatus 404) as [->|]; [|done].
      exists status, tests'. split; [done|]. right. eauto.
    + destruct (Z.eqb_spec historyStatus 404) as [->|]; [|done].
      exists status, tests'. split; [done|]. right. eauto.
    + destruct (Z.eqb_spec historyStatus 404) as [->|]; done.
    + destruct (Z.eqb_spec historyStatus 404) as [->|]; done.
  - split; [|done]. split; [done|].
    intros (status & tests & -> & [(hs & history & ->)|(body & ->)]); done.
Qed.

(** X20. A history response with status 404 is an empty history, not an
    error: the tests are loaded, its body is not read, and the status line
    reads ["Last update: N/A (or still loading)"]. *)
Theorem missing_history_file_is_tolerated (nowMs : float) (status : Z)
  (tests : list Test.t) (body : option HistoryStore) (p : Page) :
  let r := loadDataFromFiles nowMs (Responded true status (Some tests))
             (Responded false 404 body) p in
  allTestsData r.1 = tests ∧ historicalData r.1 = ∅
  ∧ errorRow_shown r.2 = false
  ∧ lastUpdateTime_textContent r.2 = "Last update: N/A (or still loading)".
Proof.
  cbv zeta. unfold loadDataFromFiles. simpl.
  unfold displayLastUpdateTime. by rewrite getLatestUpdateTime_empty.
Qed.

(** ** The text of the status line *)

Lemma getLatestUpdateTime_positive (history : HistoryStore) (t : float) :
  getLatestUpdateTime history = Some t → (0 <? t)%float = true.
Proof.
  unfold getLatestUpdateTime. destruct (0 <? _)%float eqn:H0; [|done].
  by intros [= <-].
Qed.

Lemma positive_is_truthy (t : float) :
  (0 <? t)%float = true → JS.truthy (JS.VNum t) = true.
Proof.
  intros H. destruct (ltb_not_nan _ _ H) as [_ Hn].
  simpl. rewrite Hn. simpl. rewrite negb_true_iff.
  unfold is_zero. revert H. rewrite ltb_spec, FloatAxioms.eqb_spec.
  change (Prim2SF 0) with (S754_zero false).
  unfold SFltb, SFeqb. by destruct (Prim2SF t) as [[]|[]| |[] m e].
Qed.

Lemma not_NA (s rest : string) :
  3 < String.length rest → s +:+ rest ≠ "N/A".
Proof.
  intros Hl He. apply (f_equal String.length) in He.
  rewrite length_append in He. simpl in He. lia.
Qed.

(** X21. The status line that [displayLastUpdateTime] writes is
    ["Last update: N/A (or still loading)"] when there is no latest
    timestamp, and otherwise ["Last update: "] followed by what
    [formatTimeAgo] gives, which is then never ["N/A"]: the timestamp is
    greater than 0, hence truthy. *)
Theorem status_line_cases (nowMs : float) (history : HistoryStore) :
  match getLatestUpdateTime history with
  | None =>
      displayLastUpdateTime nowMs history = "Last update: N/A (or still loading)"
  | Some latestTimestamp =>
      displayLastUpdateTime nowMs history
      = "Last update: " +:+ formatTimeAgo nowMs latestTimestamp
      ∧ formatTimeAgo nowMs latestTimestamp ≠ "N/A"
  end.
Proof.
  unfold displayLastUpdateTime.
  destruct (getLatestUpdateTime history) as [t|] eqn:Ht; [|done].
  pose proof (getLatestUpdateTime_positive history t Ht) as Hpos.
  split; [done|].
  unfold formatTimeAgo. rewrite (positive_is_truthy t Hpos). cbn [negb].
  cbv zeta.
  repeat match goal with
  | |- (if ?c then _ else _) ≠ _ => destruct c
  end; try done; apply not_NA; simpl; lia.
Qed.
